(** * scripts/update_readme.py: README generation from skill definitions

    A shallow embedding of the script and the properties of its pipeline
    (discovery, frontmatter extraction, record building, classification,
    rendering, writing).

    Conventions of the embedding.
    - A Python [str] is a Rocq [string]; a character stands for the code
      point of the same number, so the texts covered are those whose code
      points are below 256.  [PyStr] gives [str.lower], the regular
      expression class [\s], [in], [str.startswith], [str.replace] and the
      ordering of [str] on that range.
    - An exception is a value of [exn]; a computation that may raise returns
      a [result].
    - [yaml.safe_load] belongs to PyYAML, not to the script: it is a
      variable of the section that holds the script.
    - [datetime.now] is an input of [generate_readme]: the text that
      [strftime] returns.
    - Standard output is a list of [line]s, the file system a record. *)

From Stdlib Require Import String Ascii List Bool Arith NArith ZArith Lia.
From Stdlib Require Import Sorted Permutation.
Import ListNotations.

Local Open Scope list_scope.
Local Open Scope string_scope.

(** ** Exceptions *)

Inductive exn : Type :=
| YAMLError        (* yaml.YAMLError and its subclasses *)
| TypeError
| KeyError
| AttributeError
| ValueError.      (* what a constructor of PyYAML raises besides YAMLError *)

Inductive result (A : Type) : Type :=
| Ok (a : A)
| Raise (e : exn).

Arguments Ok {A} a.
Arguments Raise {A} e.

Definition bind {A B : Type} (m : result A) (k : A -> result B) : result B :=
  match m with
  | Ok a => k a
  | Raise e => Raise e
  end.

Notation "x <- m ;; k" := (bind m (fun x => k))
  (at level 61, m at next level, right associativity).

(** ** Python's [str] *)

Module PyStr.

Definition code (c : ascii) : nat := nat_of_ascii c.

Definition between (lo hi n : nat) : bool := (lo <=? n)%nat && (n <=? hi)%nat.

(** [\s] of [re] on a [str] pattern: TAB..CR, FS..US, space, NEL, NBSP. *)
Definition is_space (c : ascii) : bool :=
  between 9 13 (code c) || between 28 32 (code c)
  || (code c =? 133)%nat || (code c =? 160)%nat.

(** [str.lower] on one character: A-Z and the Latin-1 capitals. *)
Definition lower_char (c : ascii) : ascii :=
  if between 65 90 (code c) || between 192 214 (code c)
     || between 216 222 (code c)
  then ascii_of_nat (code c + 32)
  else c.

Fixpoint lower (s : string) : string :=
  match s with
  | EmptyString => EmptyString
  | String c s' => String (lower_char c) (lower s')
  end.

(** [s.startswith(p)], and the rest of [s] after [p]. *)
Fixpoint strip_prefix (p s : string) : option string :=
  match p with
  | EmptyString => Some s
  | String a p' =>
      match s with
      | EmptyString => None
      | String b s' => if Ascii.eqb a b then strip_prefix p' s' else None
      end
  end.

Definition startswith (s p : string) : bool :=
  match strip_prefix p s with Some _ => true | None => false end.

(** [sub in s]. *)
Fixpoint contains (sub s : string) : bool :=
  startswith s sub
  || match s with
     | EmptyString => false
     | String _ s' => contains sub s'
     end.

(** [s.replace(old, new)]: the occurrences of [old] are taken from the
    left, without overlap.  [skip] counts the characters of a matched
    occurrence still to be passed over. *)
Fixpoint replace_from (old new : string) (skip : nat) (s : string) : string :=
  match s with
  | EmptyString => EmptyString
  | String c s' =>
      match skip with
      | S k => replace_from old new k s'
      | O =>
          if startswith s old
          then new ++ replace_from old new (String.length old - 1) s'
          else String c (replace_from old new 0 s')
      end
  end.

(** With an empty [old], [new] goes before every character and at the end. *)
Fixpoint replace_empty (new s : string) : string :=
  match s with
  | EmptyString => new
  | String c s' => new ++ String c (replace_empty new s')
  end.

Definition replace (s old new : string) : string :=
  match old with
  | EmptyString => replace_empty new s
  | String _ _ => replace_from old new 0 s
  end.

(** [a < b] on [str]: by code points, a proper prefix first. *)
Definition lt (a b : string) : bool := String.ltb a b.

(** [bool(s)]. *)
Definition nonempty (s : string) : bool :=
  match s with EmptyString => false | String _ _ => true end.

End PyStr.

(** ** Decoded YAML *)

(** What [yaml.safe_load] returns for a document without explicit tags.
    [YOther] is a float, a date or a timestamp: an object that is neither a
    container nor a [str], of which the script can only observe the truth
    value.  A mapping lists its entries in insertion order, each key once.
    The values of explicit tags ([!!binary] gives [bytes], [!!set] a set)
    are not among these. *)
#[warnings="-register-all"]
Inductive yaml_value : Type :=
| YNull
| YBool (b : bool)
| YInt (z : Z)
| YOther (truthy : bool)
| YStr (s : string)
| YSeq (items : list yaml_value)
| YMap (entries : list (yaml_value * yaml_value)).

(** [bool(v)]. *)
Definition truthy (v : yaml_value) : bool :=
  match v with
  | YNull => false
  | YBool b => b
  | YInt z => negb (Z.eqb z 0)
  | YOther t => t
  | YStr s => PyStr.nonempty s
  | YSeq items => match items with [] => false | _ :: _ => true end
  | YMap entries => match entries with [] => false | _ :: _ => true end
  end.

(** [v == key] for a [str] literal [key]. *)
Definition is_str (key : string) (v : yaml_value) : bool :=
  match v with
  | YStr s => String.eqb key s
  | _ => false
  end.

(** [key in v]. *)
Definition py_in (key : string) (v : yaml_value) : result bool :=
  match v with
  | YMap entries => Ok (existsb (fun kv => is_str key (fst kv)) entries)
  | YSeq items => Ok (existsb (is_str key) items)
  | YStr s => Ok (PyStr.contains key s)
  | YNull | YBool _ | YInt _ | YOther _ => Raise TypeError
  end.

(** [v[key]]. *)
Definition py_getitem (v : yaml_value) (key : string) : result yaml_value :=
  match v with
  | YMap entries =>
      match find (fun kv => is_str key (fst kv)) entries with
      | Some kv => Ok (snd kv)
      | None => Raise KeyError
      end
  | YNull | YBool _ | YInt _ | YOther _ | YStr _ | YSeq _ => Raise TypeError
  end.

(** [v.lower()]. *)
Definition py_lower (v : yaml_value) : result string :=
  match v with
  | YStr s => Ok (PyStr.lower s)
  | _ => Raise AttributeError
  end.

(** [v.replace(old, new)]. *)
Definition py_replace (v : yaml_value) (old new : string) : result string :=
  match v with
  | YStr s => Ok (PyStr.replace s old new)
  | _ => Raise AttributeError
  end.

(** ** The frontmatter pattern

    [re.match(r'^---\s*\n(.*?)\n---\s*\n', content, re.DOTALL)], written as
    the backtracking search that [re] performs: a greedy [\s*] tries the
    longest run first, the lazy [.*?] the shortest. *)

Definition newline : ascii := "010"%char.

Definition nl : string := String newline EmptyString.

Module Pattern.

(** [\s*\n] matches at the start of [s]. *)
Fixpoint spaces_newline (s : string) : bool :=
  match s with
  | EmptyString => false
  | String c s' =>
      PyStr.is_space c && (spaces_newline s' || Ascii.eqb c newline)
  end.

(** [\n---\s*\n] matches at the start of [s]. *)
Definition closing (s : string) : bool :=
  match PyStr.strip_prefix (nl ++ "---") s with
  | Some rest => spaces_newline rest
  | None => false
  end.

(** [(.*?)\n---\s*\n] at the start of [s]: group 1. *)
Fixpoint lazy_body (s : string) : option string :=
  if closing s then Some EmptyString
  else match s with
       | EmptyString => None
       | String c s' => option_map (String c) (lazy_body s')
       end.

(** [\s*\n(.*?)\n---\s*\n] at the start of [s]: group 1. *)
Fixpoint opening (s : string) : option string :=
  match s with
  | EmptyString => None
  | String c s' =>
      if PyStr.is_space c then
        match opening s' with
        | Some body => Some body
        | None => if Ascii.eqb c newline then lazy_body s' else None
        end
      else None
  end.

(** The whole pattern, anchored at the start of [content]: group 1 of the
    match, [None] when [re.match] returns [None]. *)
Definition frontmatter (content : string) : option string :=
  match PyStr.strip_prefix "---" content with
  | Some rest => opening rest
  | None => None
  end.

End Pattern.

(** ** The world of the script *)

(** An entry of the root directory, as [Path.iterdir] yields it, with what
    the script can see of it: its name, whether it is a directory, and the
    text of [SKILL.md] inside it when that file exists. *)
Record dir_entry : Type := {
  entry_name : string;
  entry_is_dir : bool;
  skill_md : option string
}.

(** The working directory: its entries in listing order, and the text of
    [README.md] when it exists. *)
Record filesystem : Type := {
  listing : list dir_entry;
  readme_md : option string
}.

(** A [Path] to a [SKILL.md], with the text that [open(...).read()] returns
    for it (decoded, line ends translated to newlines). *)
Record skill_file : Type := {
  file_path : string;
  file_text : string
}.

(** The dict that [main] builds for a skill. *)
Record skill : Type := {
  name : yaml_value;
  description : yaml_value;
  path : string
}.

(** The lines that [main] prints. *)
Inductive line : Type :=
| NoSkillFiles                      (* No skill files found. *)
| FoundSkill (name : yaml_value)    (* Found skill: {name} *)
| MissingKeys (file : string)       (* Warning: {file} missing name or
                                       description in frontmatter *)
| NoValidSkills                     (* No valid skills found. *)
| Generated (count : nat).          (* Generated README.md with {count}
                                       skill(s) *)

(** How a run of [main] ends: what it printed, [README.md] afterwards, and
    whether it returned or raised. *)
Record outcome : Type := {
  printed : list line;
  readme_after : option string;
  status : result unit
}.

(** ** [list.sort(key=...)]

    The keys are computed first, in list order; if a key raises, the list is
    left as it was.  The sort is stable and compares keys with [<] only; the
    stable sorts of a list by one total order of keys all give the same
    list, here it is built by insertion. *)

Section ListSort.

Context {A : Type}.

Fixpoint insert_keyed (kx : string * A) (l : list (string * A))
  : list (string * A) :=
  match l with
  | [] => [kx]
  | ky :: l' =>
      if PyStr.lt (fst ky) (fst kx) then ky :: insert_keyed kx l'
      else kx :: l
  end.

Definition sort_keyed (l : list (string * A)) : list (string * A) :=
  fold_right insert_keyed [] l.

Fixpoint decorate (key : A -> result string) (l : list A)
  : result (list (string * A)) :=
  match l with
  | [] => Ok []
  | x :: l' =>
      k <- key x;;
      kl <- decorate key l';;
      Ok ((k, x) :: kl)
  end.

Definition list_sort (key : A -> result string) (l : list A)
  : list A * result unit :=
  match decorate key l with
  | Ok kl => (map snd (sort_keyed kl), Ok tt)
  | Raise e => (l, Raise e)
  end.

End ListSort.

(** ** The script *)

Definition SKILL_md : string := "SKILL.md".

(** [Path(".") / item.name / "SKILL.md"] as [str] gives it. *)
Definition skill_path (item : dir_entry) : string :=
  entry_name item ++ "/" ++ SKILL_md.

Definition find_skill_files (fs : filesystem) : list skill_file :=
  flat_map
    (fun item =>
       if entry_is_dir item && negb (PyStr.startswith (entry_name item) ".")
       then match skill_md item with
            | Some text => [{| file_path := skill_path item; file_text := text |}]
            | None => []
            end
       else [])
    (listing fs).

Definition keywords : list string := ["always"; "automatically"; "every"].

Definition is_auto_invoked (description : yaml_value) : result bool :=
  if negb (truthy description) then Ok false
  else
    description_lower <- py_lower description;;
    Ok (existsb (fun keyword => PyStr.contains keyword description_lower)
          keywords).

Definition generate_command (skill_name : string) (description : yaml_value)
  : result string :=
  auto <- is_auto_invoked description;;
  Ok (if auto then "Auto-invoked" else "/" ++ skill_name).

Definition header : string :=
"# Skills

This repository contains Claude Code skills. The README is automatically generated from skill definitions.

## Available Skills

| Skill | Description | Command |
|-------|-------------|---------|
".

Definition footer (timestamp : string) : string :=
  nl ++ "---" ++ nl ++ "*Last updated: " ++ timestamp ++ "*" ++ nl.

Definition row_text (skill_link description command : string) : string :=
  "| " ++ skill_link ++ " | " ++ description ++ " | " ++ command ++ " |" ++ nl.

(** The body of the loop of [generate_readme]: the row of one skill.  The
    name is a [str] here, the sort key has called [.lower()] on it. *)
Definition table_row (skill : skill) : result string :=
  match name skill with
  | YStr name =>
      command <- generate_command name (description skill);;
      description <- py_replace (description skill) "|" "\|";;
      let skill_link := "[" ++ name ++ "](" ++ path skill ++ ")" in
      Ok (row_text skill_link description command)
  | _ => Raise AttributeError
  end.

Fixpoint append_rows (readme : string) (skills : list skill) : result string :=
  match skills with
  | [] => Ok readme
  | skill :: rest =>
      row <- table_row skill;;
      append_rows (readme ++ row) rest
  end.

(** [generate_readme(skills)] at the time [timestamp]: the list [skills]
    after the call, and the text returned or the exception raised. *)
Definition generate_readme (skills : list skill) (timestamp : string)
  : list skill * result string :=
  let (skills, sorted) := list_sort (fun x => py_lower (name x)) skills in
  (skills,
   _ <- sorted;;
   readme <- append_rows header skills;;
   Ok (readme ++ footer timestamp)).

Section Script.

(** [yaml.safe_load]. *)
Variable safe_load : string -> result yaml_value.

Definition parse_frontmatter (file : skill_file) : result yaml_value :=
  let content := file_text file in
  match Pattern.frontmatter content with
  | None => Ok (YMap [])
  | Some frontmatter_text =>
      match safe_load frontmatter_text with
      | Ok v => Ok (if truthy v then v else YMap [])
      | Raise YAMLError => Ok (YMap [])
      | Raise e => Raise e
      end
  end.

(** The test of the loop of [main] and the dict it builds: [Some] skill
    when both keys are found, [None] for the warning branch.  Nothing is
    appended or printed before the last point that can raise. *)
Definition examine (file : skill_file) : result (option skill) :=
  frontmatter <- parse_frontmatter file;;
  has_name <- py_in "name" frontmatter;;
  has_both <- (if has_name then py_in "description" frontmatter
               else Ok false);;
  if has_both then
    n <- py_getitem frontmatter "name";;
    d <- py_getitem frontmatter "description";;
    Ok (Some {| name := n; description := d; path := file_path file |})
  else Ok None.

(** The loop of [main] over the skill files, from the state [skills],
    [out] (the list built and the lines printed so far). *)
Fixpoint parse_each (skill_files : list skill_file)
    (skills : list skill) (out : list line)
  : list skill * list line * result unit :=
  match skill_files with
  | [] => (skills, out, Ok tt)
  | file :: rest =>
      match examine file with
      | Raise e => (skills, out, Raise e)
      | Ok (Some skill) =>
          parse_each rest (skills ++ [skill])%list
            (out ++ [FoundSkill (name skill)])%list
      | Ok None =>
          parse_each rest skills (out ++ [MissingKeys (file_path file)])%list
      end
  end.

(** [main()], run in [fs] at the time [timestamp].  The write of
    [README.md] is taken to succeed: what a failing write leaves behind is
    not part of [outcome]. *)
Definition main (fs : filesystem) (timestamp : string) : outcome :=
  let unchanged := readme_md fs in
  match find_skill_files fs with
  | [] => {| printed := [NoSkillFiles]; readme_after := unchanged;
             status := Ok tt |}
  | skill_files =>
      match parse_each skill_files [] [] with
      | (_, out, Raise e) =>
          {| printed := out; readme_after := unchanged; status := Raise e |}
      | ([], out, Ok _) =>
          {| printed := (out ++ [NoValidSkills])%list;
             readme_after := unchanged; status := Ok tt |}
      | (skills, out, Ok _) =>
          match generate_readme skills timestamp with
          | (_, Raise e) =>
              {| printed := out; readme_after := unchanged;
                 status := Raise e |}
          | (skills, Ok readme_content) =>
              {| printed := (out ++ [Generated (List.length skills)])%list;
                 readme_after := Some readme_content; status := Ok tt |}
          end
      end
  end.

End Script.

(** ** Vocabulary of the statements *)

(** Every character of [s] is whitespace. *)
Fixpoint all_space (s : string) : bool :=
  match s with
  | EmptyString => true
  | String c s' => PyStr.is_space c && all_space s'
  end.

(** The pattern of [parse_frontmatter] as a set of texts: three hyphens,
    whitespace, a newline, a body, a newline, three hyphens, whitespace, a
    newline, then anything. *)
Definition has_block (content : string) : Prop :=
  exists ws1 body ws2 rest,
    all_space ws1 = true /\ all_space ws2 = true /\
    content = "---" ++ ws1 ++ nl ++ body ++ nl ++ "---" ++ ws2 ++ nl ++ rest.

(** [a <= b] on keys: not [b < a]. *)
Definition key_le (a b : string) : Prop := PyStr.lt b a = false.

Section SortVocabulary.

Context {A : Type}.

(** Decorated pairs in key order. *)
Definition pair_le (p q : string * A) : Prop := key_le (fst p) (fst q).

(** The pair has the key [k]. *)
Definition keyed (k : string) (p : string * A) : bool :=
  String.eqb k (fst p).

Variable key : A -> result string.

(** The pair holds the key of its element. *)
Definition decorated (p : string * A) : Prop := key (snd p) = Ok (fst p).

Definition has_key (x : A) : Prop := exists k, key x = Ok k.

(** [a] sorts no later than [b]. *)
Definition elem_le (a b : A) : Prop :=
  exists ka kb, key a = Ok ka /\ key b = Ok kb /\ key_le ka kb.

(** The key of [x] is [k]. *)
Definition elem_keyed (k : string) (x : A) : bool :=
  match key x with
  | Ok k' => String.eqb k k'
  | Raise _ => false
  end.

End SortVocabulary.

(** The sort key of [generate_readme]: [x['name'].lower()]. *)
Definition sort_key (x : skill) : result string := py_lower (name x).

(** The name of the skill is a [str]; so are its name and description. *)
Definition str_named (x : skill) : Prop := exists n, name x = YStr n.

Definition str_valued (x : skill) : Prop :=
  str_named x /\ exists d, description x = YStr d.

(** [cell] is [d] with a backslash put before every pipe, and nothing else
    changed. *)
Inductive pipes_escaped : string -> string -> Prop :=
| escaped_end : pipes_escaped "" ""
| escaped_pipe d cell :
    pipes_escaped d cell ->
    pipes_escaped (String "|" d) (String "\" (String "|" cell))
| escaped_other c d cell :
    c <> "|"%char ->
    pipes_escaped d cell ->
    pipes_escaped (String c d) (String c cell).

(** The rows of a table, one after the other. *)
Fixpoint join (rows : list string) : string :=
  match rows with
  | [] => ""
  | row :: rows' => row ++ join rows'
  end.

(** [rows] are the rows of [skills], in order. *)
Definition rows_of (skills : list skill) (rows : list string) : Prop :=
  Forall2 (fun x row => table_row x = Ok row) skills rows.

(** The block as the specification words it: a marker is a line that holds
    three hyphens and, before and after them, whitespace only. *)
Definition one_line (s : string) : bool := negb (PyStr.contains nl s).

Definition marker_line (l : string) : Prop :=
  exists lead trail,
    all_space lead = true /\ all_space trail = true /\ one_line l = true /\
    l = lead ++ "---" ++ trail.

Definition claimed_block (content : string) : Prop :=
  exists marker1 body marker2 rest,
    marker_line marker1 /\ marker_line marker2 /\
    content = marker1 ++ nl ++ body ++ nl ++ marker2 ++ nl ++ rest.

(** The decoded frontmatter is a mapping that holds both keys. *)
Definition has_keys (v : yaml_value) : bool :=
  match v with
  | YMap entries =>
      existsb (fun kv => is_str "name" (fst kv)) entries
      && existsb (fun kv => is_str "description" (fst kv)) entries
  | _ => false
  end.

(** As the specification words it: both keys, with non-empty values. *)
Definition has_nonempty_keys (v : yaml_value) : bool :=
  match py_getitem v "name", py_getitem v "description" with
  | Ok n, Ok d => truthy n && truthy d
  | _, _ => false
  end.

(** The decoded frontmatter is a mapping in which "name" and "description",
    where present, are [str]s. *)
Definition str_fields (v : yaml_value) : Prop :=
  exists entries,
    v = YMap entries /\
    forall key x,
      key = "name" \/ key = "description" ->
      py_getitem v key = Ok x -> exists s, x = YStr s.

(** The number of warnings in [out] that name [file]. *)
Definition warnings_naming (file : string) (out : list line) : nat :=
  List.length
    (filter (fun l => match l with
                      | MissingKeys file' => String.eqb file file'
                      | _ => false
                      end) out).

Section RunVocabulary.

Variable safe_load : string -> result yaml_value.

Definition frontmatter_has_keys (file : skill_file) : bool :=
  match parse_frontmatter safe_load file with
  | Ok v => has_keys v
  | Raise _ => false
  end.

Definition well_formed (file : skill_file) : Prop :=
  exists v, parse_frontmatter safe_load file = Ok v /\ str_fields v.

(** The entry is a directory that is not hidden and holds a [SKILL.md]
    whose frontmatter has both keys. *)
Definition qualifies (item : dir_entry) : Prop :=
  entry_is_dir item = true /\
  PyStr.startswith (entry_name item) "." = false /\
  exists text,
    skill_md item = Some text /\
    frontmatter_has_keys
      {| file_path := skill_path item; file_text := text |} = true.

(** What the loop of [main] appends and prints for one file. *)
Definition built (file : skill_file) : list skill :=
  match examine safe_load file with
  | Ok (Some x) => [x]
  | _ => []
  end.

Definition report (file : skill_file) : list line :=
  match examine safe_load file with
  | Ok (Some x) => [FoundSkill (name x)]
  | Ok None => [MissingKeys (file_path file)]
  | Raise _ => []
  end.

End RunVocabulary.

(** ** Sample documents

    [sample_load] tabulates [yaml.safe_load] on the frontmatter texts of the
    examples; no other text is given to it. *)

Definition mapping (n d : string) : yaml_value :=
  YMap [(YStr "name", YStr n); (YStr "description", YStr d)].

Definition sample_load (text : string) : result yaml_value :=
  if String.eqb text "name: Alpha Tool
description: Always runs on save"
  then Ok (mapping "Alpha Tool" "Always runs on save")
  else if String.eqb text "name: Beta Tool
description: Formats code"
  then Ok (mapping "Beta Tool" "Formats code")
  else if String.eqb text "name: gamma
description: ''"
  then Ok (mapping "gamma" "")
  else if String.eqb text "- name
- description"
  then Ok (YSeq [YStr "name"; YStr "description"])
  else if String.eqb text "title: notes"
  then Ok (YMap [(YStr "title", YStr "notes")])
  else if String.eqb text ""
  then Ok YNull
  else Raise YAMLError.   (* "name: [", an unclosed flow sequence *)

Definition md (file text : string) : skill_file :=
  {| file_path := file; file_text := text |}.

Definition alpha_md : string := "---
name: Alpha Tool
description: Always runs on save
---
# Alpha
".

Definition beta_md : string := "---
name: Beta Tool
description: Formats code
---
".

Definition gamma_md : string := "---
name: gamma
description: ''
---
".

Definition list_md : string := "---
- name
- description
---
".

Definition notes_md : string := "---
title: notes
---
".

Definition broken_md : string := "---
name: [
---
".

Definition plain_md : string := "# No frontmatter here
".

Definition empty_md : string := "---

---
".

Definition indented_md : string := " ---
name: x
---
".

Definition subdir (dir_name text : string) : dir_entry :=
  {| entry_name := dir_name; entry_is_dir := true; skill_md := Some text |}.

Definition plain_file (file_name : string) : dir_entry :=
  {| entry_name := file_name; entry_is_dir := false; skill_md := None |}.

Definition empty_dir (dir_name : string) : dir_entry :=
  {| entry_name := dir_name; entry_is_dir := true; skill_md := None |}.

(** A working directory: two skills, listed out of order, a directory
    whose frontmatter has neither key, a hidden directory, a directory
    without [SKILL.md], a plain file, and an earlier [README.md]. *)
Definition sample_fs : filesystem :=
  {| listing := [subdir "beta" beta_md; subdir ".hidden" alpha_md;
                 subdir "notes" notes_md; plain_file "LICENSE";
                 subdir "alpha" alpha_md; empty_dir "docs"];
     readme_md := Some "old text" |}.

Definition sample_time : string := "2026-01-01 00:00:00 UTC".

Definition record (n d p : string) : skill :=
  {| name := YStr n; description := YStr d; path := p |}.

Definition sample_skills : list skill :=
  [record "beta" "Formats code" "beta/SKILL.md";
   record "Alpha" "Always | on" "alpha/SKILL.md";
   record "BETA" "second beta" "beta2/SKILL.md"].

(** ** Vocabulary of the further properties *)

(** The entry is one that [find_skill_files] keeps: a directory that is not
    hidden and holds a [SKILL.md]. *)
Definition discoverable (item : dir_entry) : bool :=
  entry_is_dir item
  && negb (PyStr.startswith (entry_name item) ".")
  && match skill_md item with Some _ => true | None => false end.

(** The working directory without the entries that discovery passes over. *)
Definition only_discoverable (fs : filesystem) : filesystem :=
  {| listing := filter discoverable (listing fs); readme_md := readme_md fs |}.

Definition is_mapping (v : yaml_value) : bool :=
  match v with YMap _ => true | _ => false end.

(** The description of the skill is a [str]. *)
Definition str_described (x : skill) : Prop := exists d, description x = YStr d.

(** A working directory whose second skill file holds a list. *)
Definition list_fs : filesystem :=
  {| listing := [subdir "notes" notes_md; subdir "list" list_md;
                 subdir "alpha" alpha_md];
     readme_md := Some "old text" |}.




(** A skill file whose description is left empty, which decodes to
    [None], beside a well-formed one. *)
Definition delta_md : string := "---
name: delta
description:
---
".

Definition null_load (text : string) : result yaml_value :=
  if String.eqb text "name: delta
description:"
  then Ok (YMap [(YStr "name", YStr "delta"); (YStr "description", YNull)])
  else sample_load text.

Definition delta_fs : filesystem :=
  {| listing := [subdir "alpha" alpha_md; subdir "delta" delta_md];
     readme_md := Some "old text" |}.

(** The value is of one of the kinds that have no [lower] method: [None], a
    boolean, a number, a date, a list, a mapping. *)
Definition without_lower (v : yaml_value) : bool :=
  match v with
  | YNull | YBool _ | YInt _ | YOther _ | YSeq _ | YMap _ => true
  | YStr _ => false
  end.

(** * Properties *)

(** ** Strings *)

Lemma append_assoc (a b c : string) : (a ++ b) ++ c = a ++ (b ++ c).
Proof. induction a as [|x a IH]; simpl; [reflexivity | now rewrite IH]. Qed.

Lemma append_nil_r (a : string) : a ++ "" = a.
Proof. induction a as [|x a IH]; simpl; [reflexivity | now rewrite IH]. Qed.

Lemma strip_prefix_iff (p s r : string) :
  PyStr.strip_prefix p s = Some r <-> s = p ++ r.
Proof.
  revert s; induction p as [|a p IH]; intros s; simpl.
  - split; [intros [= ->] | intros ->]; reflexivity.
  - destruct s as [|b s].
    + split; discriminate.
    + destruct (Ascii.eqb_spec a b) as [->|Hne].
      * rewrite IH. split; [intros -> | intros [= ->]]; reflexivity.
      * split; [discriminate | intros [= <- _]; now elim Hne].
Qed.

Lemma startswith_iff (s p : string) :
  PyStr.startswith s p = true <-> exists r, s = p ++ r.
Proof.
  unfold PyStr.startswith.
  destruct (PyStr.strip_prefix p s) as [r|] eqn:E.
  - apply strip_prefix_iff in E. split; [exists r; exact E | reflexivity].
  - split; [discriminate | intros [r Hr]].
    apply strip_prefix_iff in Hr. congruence.
Qed.

Lemma contains_iff (sub s : string) :
  PyStr.contains sub s = true <-> exists pre post, s = pre ++ sub ++ post.
Proof.
  induction s as [|c s IH].
  - simpl. rewrite orb_false_r, startswith_iff. split.
    + intros [r Hr]. exists "", r. exact Hr.
    + intros (pre & post & H). destruct pre; [|discriminate].
      exists post. exact H.
  - change (PyStr.contains sub (String c s))
      with (PyStr.startswith (String c s) sub || PyStr.contains sub s).
    rewrite orb_true_iff, startswith_iff, IH. split.
    + intros [[r Hr] | (pre & post & ->)].
      * exists "", r. exact Hr.
      * exists (String c pre), post. reflexivity.
    + intros ([|x pre] & post & H).
      * left. exists post. exact H.
      * right. injection H as _ ->. exists pre, post. reflexivity.
Qed.

(** ** The frontmatter pattern *)

Lemma spaces_newline_iff (s : string) :
  Pattern.spaces_newline s = true <->
  exists ws rest, all_space ws = true /\ s = ws ++ nl ++ rest.
Proof.
  split.
  - induction s as [|c s IH]; simpl; [discriminate|].
    rewrite andb_true_iff, orb_true_iff. intros [Hc [Hs | Hn]].
    + destruct (IH Hs) as (ws & rest & Hws & ->).
      exists (String c ws), rest. simpl. now rewrite Hc, Hws.
    + apply Ascii.eqb_eq in Hn. subst c. exists "", s. now split.
  - intros (ws & rest & Hws & ->).
    induction ws as [|c ws IH]; simpl in *.
    + now rewrite orb_true_r.
    + apply andb_true_iff in Hws as [Hc Hws]. now rewrite Hc, (IH Hws).
Qed.

Lemma closing_iff (s : string) :
  Pattern.closing s = true <->
  exists ws rest, all_space ws = true /\ s = nl ++ "---" ++ ws ++ nl ++ rest.
Proof.
  unfold Pattern.closing.
  destruct (PyStr.strip_prefix (nl ++ "---") s) as [r|] eqn:E.
  - apply strip_prefix_iff in E. subst s. rewrite spaces_newline_iff.
    split; intros (ws & rest & Hws & H); exists ws, rest; split; trivial.
    + now rewrite H.
    + simpl in H. now injection H.
  - split; [discriminate|]. intros (ws & rest & _ & H).
    assert (PyStr.strip_prefix (nl ++ "---") s = Some (ws ++ nl ++ rest))
      by (apply strip_prefix_iff; rewrite H; reflexivity).
    congruence.
Qed.

Lemma lazy_body_unfold (s : string) :
  Pattern.lazy_body s =
  if Pattern.closing s then Some ""
  else match s with
       | EmptyString => None
       | String c s' => option_map (String c) (Pattern.lazy_body s')
       end.
Proof. destruct s; reflexivity. Qed.

Lemma lazy_body_sound (s body : string) :
  Pattern.lazy_body s = Some body ->
  exists t, s = body ++ t /\ Pattern.closing t = true.
Proof.
  revert body; induction s as [|c s IH]; intros body;
    rewrite lazy_body_unfold; destruct (Pattern.closing _) eqn:E.
  - intros [= <-]. now exists "".
  - discriminate.
  - intros [= <-]. now exists (String c s).
  - destruct (Pattern.lazy_body s) as [b|]; [|discriminate].
    intros [= <-]. destruct (IH b eq_refl) as (t & -> & Ht).
    now exists t.
Qed.

Lemma lazy_body_complete (body t : string) :
  Pattern.closing t = true -> Pattern.lazy_body (body ++ t) <> None.
Proof.
  intros Ht. induction body as [|c body IH]; simpl append;
    rewrite lazy_body_unfold.
  - now rewrite Ht.
  - destruct (Pattern.closing (String c (body ++ t))); [easy|].
    destruct (Pattern.lazy_body (body ++ t)); [easy | now elim IH].
Qed.

Lemma opening_sound (s body : string) :
  Pattern.opening s = Some body ->
  exists ws t, all_space ws = true /\ s = ws ++ nl ++ body ++ t /\
               Pattern.closing t = true.
Proof.
  induction s as [|c s IH]; simpl; [discriminate|].
  destruct (PyStr.is_space c) eqn:Hc; [|discriminate].
  destruct (Pattern.opening s) as [b|].
  - intros [= <-]. destruct (IH eq_refl) as (ws & t & Hws & -> & Ht).
    exists (String c ws), t. simpl. now rewrite Hc, Hws.
  - destruct (Ascii.eqb_spec c newline) as [->|]; [|discriminate].
    intros H. apply lazy_body_sound in H as (t & -> & Ht).
    now exists "", t.
Qed.

Lemma opening_complete (ws body t : string) :
  all_space ws = true -> Pattern.closing t = true ->
  Pattern.opening (ws ++ nl ++ body ++ t) <> None.
Proof.
  intros Hws Ht. induction ws as [|c ws IH]; simpl in *.
  - destruct (Pattern.opening (body ++ t)); [easy|].
    now apply lazy_body_complete.
  - apply andb_true_iff in Hws as [Hc Hws]. rewrite Hc.
    specialize (IH Hws).
    destruct (Pattern.opening _); [easy | now elim IH].
Qed.

(** What [re.match] captures is a body between two markers. *)
Lemma frontmatter_sound (content body : string) :
  Pattern.frontmatter content = Some body ->
  exists ws1 ws2 rest,
    all_space ws1 = true /\ all_space ws2 = true /\
    content = "---" ++ ws1 ++ nl ++ body ++ nl ++ "---" ++ ws2 ++ nl ++ rest.
Proof.
  unfold Pattern.frontmatter.
  destruct (PyStr.strip_prefix "---" content) as [r|] eqn:E; [|discriminate].
  apply strip_prefix_iff in E. subst content. intros H.
  apply opening_sound in H as (ws1 & t & H1 & -> & Ht).
  apply closing_iff in Ht as (ws2 & rest & H2 & ->).
  exists ws1, ws2, rest. repeat split; trivial.
Qed.

(** ** The order of [str] *)

Lemma ascii_compare_refl (a : ascii) : Ascii.compare a a = Eq.
Proof. apply N.compare_refl. Qed.

Lemma ascii_compare_lt_trans (a b c : ascii) :
  Ascii.compare a b = Lt -> Ascii.compare b c = Lt -> Ascii.compare a c = Lt.
Proof.
  unfold Ascii.compare. rewrite !N.compare_lt_iff. apply N.lt_trans.
Qed.

Lemma compare_lt_trans (a b c : string) :
  String.compare a b = Lt -> String.compare b c = Lt ->
  String.compare a c = Lt.
Proof.
  revert b c; induction a as [|x a IH]; intros [|y b] [|z c]; simpl;
    try easy.
  destruct (Ascii.compare x y) eqn:Exy; try discriminate;
    destruct (Ascii.compare y z) eqn:Eyz; try discriminate.
  - apply Ascii.compare_eq_iff in Exy, Eyz. subst.
    rewrite ascii_compare_refl. apply IH.
  - apply Ascii.compare_eq_iff in Exy. subst. now rewrite Eyz.
  - apply Ascii.compare_eq_iff in Eyz. subst. now rewrite Exy.
  - now rewrite (ascii_compare_lt_trans _ _ _ Exy Eyz).
Qed.

Lemma lt_trans (a b c : string) :
  PyStr.lt a b = true -> PyStr.lt b c = true -> PyStr.lt a c = true.
Proof.
  unfold PyStr.lt, String.ltb.
  destruct (String.compare a b) eqn:Eab; try discriminate.
  destruct (String.compare b c) eqn:Ebc; try discriminate.
  now rewrite (compare_lt_trans _ _ _ Eab Ebc).
Qed.

Lemma lt_asym (a b : string) : PyStr.lt a b = true -> PyStr.lt b a = false.
Proof.
  unfold PyStr.lt, String.ltb. rewrite (String.compare_antisym b a).
  now destruct (String.compare a b).
Qed.

Lemma lt_irrefl (a : string) : PyStr.lt a a = false.
Proof.
  destruct (PyStr.lt a a) eqn:E; [|reflexivity].
  now rewrite (lt_asym _ _ E) in E.
Qed.

Lemma lt_total (a b : string) :
  PyStr.lt a b = false -> PyStr.lt b a = false -> a = b.
Proof.
  unfold PyStr.lt, String.ltb. rewrite (String.compare_antisym b a).
  destruct (String.compare a b) eqn:E; simpl; try discriminate.
  intros _ _. now apply String.compare_eq_iff.
Qed.

Lemma key_le_trans (a b c : string) : key_le a b -> key_le b c -> key_le a c.
Proof.
  unfold key_le. intros Hab Hbc.
  destruct (PyStr.lt c a) eqn:Hca; [|reflexivity].
  destruct (PyStr.lt a b) eqn:Hlt.
  - now rewrite (lt_trans _ _ _ Hca Hlt) in Hbc.
  - rewrite (lt_total _ _ Hlt Hab) in Hca. congruence.
Qed.

Lemma key_le_antisym (a b : string) : key_le a b -> key_le b a -> a = b.
Proof. unfold key_le. intros H1 H2. now apply lt_total. Qed.

(** ** The stable sort *)

Section SortFacts.

Context {A : Type}.

Lemma insert_keyed_perm (kx : string * A) (l : list (string * A)) :
  Permutation (insert_keyed kx l) (kx :: l).
Proof.
  induction l as [|ky l IH]; simpl; [reflexivity|].
  destruct (PyStr.lt (fst ky) (fst kx)); [|reflexivity].
  rewrite IH. apply perm_swap.
Qed.

Lemma sort_keyed_perm (l : list (string * A)) :
  Permutation (sort_keyed l) l.
Proof.
  induction l as [|kx l IH]; simpl; [reflexivity|].
  now rewrite insert_keyed_perm, IH.
Qed.

Lemma insert_keyed_sorted (kx : string * A) (l : list (string * A)) :
  StronglySorted pair_le l -> StronglySorted pair_le (insert_keyed kx l).
Proof.
  induction 1 as [|ky l Hl IH Hall]; simpl.
  - repeat constructor.
  - destruct (PyStr.lt (fst ky) (fst kx)) eqn:E.
    + constructor; [exact IH|].
      rewrite insert_keyed_perm. constructor; [|exact Hall].
      now apply lt_asym.
    + constructor; [now constructor|].
      constructor; [exact E|].
      eapply Forall_impl; [|exact Hall].
      intros kz Hz. eapply key_le_trans; [exact E | exact Hz].
Qed.

Lemma sort_keyed_sorted (l : list (string * A)) :
  StronglySorted pair_le (sort_keyed l).
Proof.
  induction l as [|kx l IH]; simpl; [constructor|].
  now apply insert_keyed_sorted.
Qed.

(** Stability: the elements of one key keep their order. *)
Lemma insert_keyed_stable (k : string) (kx : string * A) l :
  filter (keyed k) (insert_keyed kx l) = filter (keyed k) (kx :: l).
Proof.
  induction l as [|ky l IH]; [reflexivity|].
  simpl insert_keyed. destruct (PyStr.lt (fst ky) (fst kx)) eqn:E;
    [|reflexivity].
  simpl filter in *. rewrite IH.
  destruct (keyed k kx) eqn:Ex, (keyed k ky) eqn:Ey; try reflexivity.
  unfold keyed in *. apply String.eqb_eq in Ex, Ey.
  rewrite <- Ex, <- Ey, lt_irrefl in E. discriminate.
Qed.

Lemma sort_keyed_stable (k : string) (l : list (string * A)) :
  filter (keyed k) (sort_keyed l) = filter (keyed k) l.
Proof.
  induction l as [|kx l IH]; [reflexivity|].
  simpl sort_keyed. rewrite insert_keyed_stable. simpl. now rewrite IH.
Qed.

Lemma sort_keyed_sorted_id (l : list (string * A)) :
  StronglySorted pair_le l -> sort_keyed l = l.
Proof.
  induction 1 as [|kx l Hl IH Hall]; [reflexivity|].
  simpl. rewrite IH. destruct l as [|ky l]; [reflexivity|].
  simpl. apply Forall_inv in Hall. unfold pair_le, key_le in Hall.
  now rewrite Hall.
Qed.

(** Sorted lists of keys with the same elements are equal. *)
Lemma sorted_keys_unique (a b : list string) :
  StronglySorted key_le a -> StronglySorted key_le b ->
  Permutation a b -> a = b.
Proof.
  intros Ha; revert b.
  induction Ha as [|x a Ha IH Hx]; intros b Hb Hp.
  - now apply Permutation_nil in Hp.
  - destruct Hb as [|y b Hb Hy].
    + apply Permutation_sym, Permutation_nil in Hp. discriminate.
    + assert (x = y) as <-.
      { assert (In y (x :: a)) as Iy
          by (eapply Permutation_in; [symmetry; exact Hp | now left]).
        assert (In x (y :: b)) as Ix
          by (eapply Permutation_in; [exact Hp | now left]).
        destruct Iy as [|Iy]; [assumption|].
        destruct Ix as [|Ix]; [now symmetry|].
        rewrite Forall_forall in Hx, Hy.
        apply key_le_antisym; auto. }
      f_equal. apply IH; [exact Hb|].
      now apply Permutation_cons_inv in Hp.
Qed.

End SortFacts.

(** ** [list.sort(key=...)] *)

Section ListSortFacts.

Context {A : Type} (key : A -> result string).

Lemma decorate_ok (l : list A) (kl : list (string * A)) :
  decorate key l = Ok kl -> map snd kl = l /\ Forall (decorated key) kl.
Proof.
  revert kl; induction l as [|x l IH]; intros kl; simpl.
  - intros [= <-]. now split.
  - destruct (key x) as [k|] eqn:Ek; [|discriminate]. simpl.
    destruct (decorate key l) as [kl'|]; [|discriminate]. simpl.
    intros [= <-]. destruct (IH kl' eq_refl) as [<- Hall].
    split; [reflexivity | now constructor].
Qed.

Lemma decorate_map_snd (kl : list (string * A)) :
  Forall (decorated key) kl -> decorate key (map snd kl) = Ok kl.
Proof.
  induction 1 as [|[k x] kl Hx _ IH]; [reflexivity|].
  simpl in *. unfold decorated in Hx. simpl in Hx.
  now rewrite Hx, IH.
Qed.

Lemma decorate_total (l : list A) :
  Forall (has_key key) l -> exists kl, decorate key l = Ok kl.
Proof.
  induction 1 as [|x l [k Hk] _ [kl IH]]; simpl.
  - now exists [].
  - rewrite Hk, IH. now eexists.
Qed.

Lemma decorate_raise (l : list A) (e : exn) :
  decorate key l = Raise e -> exists x, In x l /\ key x = Raise e.
Proof.
  induction l as [|x l IH]; simpl; [discriminate|].
  destruct (key x) as [k|e'] eqn:Ek; simpl.
  - destruct (decorate key l) as [kl|e']; simpl; [discriminate|].
    intros [= ->]. destruct (IH eq_refl) as (y & Hy & Hk).
    exists y. now split; [right|].
  - intros [= ->]. exists x. now split; [left|].
Qed.

Lemma sorted_map_snd (kl : list (string * A)) :
  Forall (decorated key) kl -> StronglySorted pair_le kl ->
  StronglySorted (elem_le key) (map snd kl).
Proof.
  intros Hd Hs. induction Hs as [|p kl Hs IH Hp]; simpl; [constructor|].
  apply Forall_cons_iff in Hd as [Hdp Hd].
  constructor; [now apply IH|].
  rewrite Forall_map. rewrite Forall_forall in Hp, Hd |- *.
  intros q Hq. exists (fst p), (fst q).
  repeat split; [exact Hdp | now apply Hd | now apply Hp].
Qed.

Lemma sorted_of_map_snd (kl : list (string * A)) :
  Forall (decorated key) kl -> StronglySorted (elem_le key) (map snd kl) ->
  StronglySorted pair_le kl.
Proof.
  induction kl as [|p kl IH]; intros Hd Hs; [constructor|].
  apply Forall_cons_iff in Hd as [Hdp Hd].
  simpl in Hs. apply StronglySorted_inv in Hs as [Hs Hp].
  constructor; [now apply IH|].
  rewrite Forall_map in Hp. rewrite Forall_forall in Hp, Hd |- *.
  intros q Hq. destruct (Hp q Hq) as (ka & kb & Ha & Hb & Hle).
  unfold pair_le. specialize (Hd q Hq). unfold decorated in Hdp, Hd.
  congruence.
Qed.

Lemma filter_map_snd (k : string) (kl : list (string * A)) :
  Forall (decorated key) kl ->
  filter (elem_keyed key k) (map snd kl) = map snd (filter (keyed k) kl).
Proof.
  induction 1 as [|p kl Hp _ IH]; [reflexivity|].
  cbn [map filter]. rewrite IH.
  replace (elem_keyed key k (snd p)) with (keyed k p)
    by (unfold elem_keyed; now rewrite Hp).
  now destruct (keyed k p).
Qed.

Lemma sorted_decorated (kl : list (string * A)) :
  Forall (decorated key) kl -> Forall (decorated key) (sort_keyed kl).
Proof.
  intros H. eapply Permutation_Forall; [|exact H].
  symmetry. apply sort_keyed_perm.
Qed.

(** When every key is computed, the list is left sorted, with the same
    elements, those of one key in their former order. *)
Lemma list_sort_ok (l : list A) :
  Forall (has_key key) l ->
  exists l',
    list_sort key l = (l', Ok tt) /\
    Permutation l l' /\
    StronglySorted (elem_le key) l' /\
    forall k, filter (elem_keyed key k) l' = filter (elem_keyed key k) l.
Proof.
  intros H. destruct (decorate_total l H) as [kl Hkl].
  unfold list_sort. rewrite Hkl.
  destruct (decorate_ok l kl Hkl) as [Hl Hd].
  exists (map snd (sort_keyed kl)). split; [reflexivity|].
  split; [|split].
  - rewrite <- Hl. apply Permutation_map. symmetry. apply sort_keyed_perm.
  - apply sorted_map_snd; [now apply sorted_decorated|].
    apply sort_keyed_sorted.
  - intros k. rewrite filter_map_snd by now apply sorted_decorated.
    rewrite sort_keyed_stable, <- filter_map_snd by exact Hd.
    now rewrite Hl.
Qed.

Lemma list_sort_inv (l l' : list A) (r : result unit) :
  list_sort key l = (l', r) ->
  (r = Ok tt /\ exists kl, decorate key l = Ok kl /\
                           l' = map snd (sort_keyed kl)) \/
  (exists e, r = Raise e /\ l' = l /\ decorate key l = Raise e).
Proof.
  unfold list_sort. destruct (decorate key l) as [kl|e]; intros [= <- <-].
  - left. split; [reflexivity|]. now exists kl.
  - right. now exists e.
Qed.

(** A sorted list is left as it is. *)
Lemma list_sort_sorted_id (l : list A) :
  Forall (has_key key) l -> StronglySorted (elem_le key) l ->
  list_sort key l = (l, Ok tt).
Proof.
  intros H Hs. destruct (decorate_total l H) as [kl Hkl].
  unfold list_sort. rewrite Hkl.
  destruct (decorate_ok l kl Hkl) as [<- Hd].
  rewrite sort_keyed_sorted_id; [reflexivity|].
  now apply sorted_of_map_snd.
Qed.

(** Sorting again changes nothing. *)
Lemma list_sort_idem (l l' : list A) :
  list_sort key l = (l', Ok tt) -> list_sort key l' = (l', Ok tt).
Proof.
  intros H. apply list_sort_inv in H as [(_ & kl & Hkl & ->) | (e & ? & _)];
    [|discriminate].
  destruct (decorate_ok l kl Hkl) as [_ Hd].
  unfold list_sort.
  rewrite decorate_map_snd by now apply sorted_decorated.
  rewrite sort_keyed_sorted_id; [reflexivity | apply sort_keyed_sorted].
Qed.

Lemma map_Ok_inj (a b : list string) :
  map (@Ok string) a = map (@Ok string) b -> a = b.
Proof.
  revert b; induction a as [|x a IH]; intros [|y b]; simpl; try easy.
  intros [= -> H]. f_equal. now apply IH.
Qed.

Lemma map_key_decorated (kl : list (string * A)) :
  Forall (decorated key) kl -> map key (map snd kl) = map (@Ok string) (map fst kl).
Proof.
  induction 1 as [|p kl Hp _ IH]; [reflexivity|].
  simpl. now rewrite IH, Hp.
Qed.

(** The sequence of keys after the sort does not depend on the order of
    the list before it. *)
Lemma list_sort_keys (l1 l2 l1' l2' : list A) :
  Permutation l1 l2 ->
  list_sort key l1 = (l1', Ok tt) -> list_sort key l2 = (l2', Ok tt) ->
  map key l1' = map key l2'.
Proof.
  intros Hp H1 H2.
  apply list_sort_inv in H1 as [(_ & kl1 & Hk1 & ->) | (e & ? & _)];
    [|discriminate].
  apply list_sort_inv in H2 as [(_ & kl2 & Hk2 & ->) | (e & ? & _)];
    [|discriminate].
  destruct (decorate_ok _ _ Hk1) as [E1 D1].
  destruct (decorate_ok _ _ Hk2) as [E2 D2].
  rewrite !map_key_decorated by now apply sorted_decorated.
  f_equal. apply sorted_keys_unique.
  - clear. generalize (sort_keyed_sorted kl1).
    induction 1 as [|p l _ IH Hp]; simpl; constructor; [exact IH|].
    now rewrite Forall_map.
  - clear. generalize (sort_keyed_sorted kl2).
    induction 1 as [|p l _ IH Hp]; simpl; constructor; [exact IH|].
    now rewrite Forall_map.
  - rewrite !sort_keyed_perm.
    assert (Permutation (map key l1) (map key l2)) as Hk
      by now apply Permutation_map.
    rewrite <- E1, <- E2, !map_key_decorated in Hk by assumption.
    apply Permutation_map_inv in Hk as (l3 & E3 & P3).
    apply map_Ok_inj in E3. subst l3. now symmetry.
Qed.

End ListSortFacts.

(** ** The classifier and the cells of a row *)

Lemma is_auto_invoked_str (d : string) :
  is_auto_invoked (YStr d) =
  Ok (existsb (fun keyword => PyStr.contains keyword (PyStr.lower d)) keywords).
Proof.
  unfold is_auto_invoked. destruct d as [|c d]; [reflexivity|].
  reflexivity.
Qed.

Lemma replace_pipe_escaped (d : string) :
  pipes_escaped d (PyStr.replace d "|" "\|").
Proof.
  unfold PyStr.replace. induction d as [|c d IH]; [constructor|].
  cbn [PyStr.replace_from]. unfold PyStr.startswith. cbn [PyStr.strip_prefix].
  destruct (Ascii.eqb_spec "|" c) as [<-|Hne].
  - apply escaped_pipe. exact IH.
  - apply escaped_other; [congruence | exact IH].
Qed.

Lemma pipes_escaped_unique (d cell1 cell2 : string) :
  pipes_escaped d cell1 -> pipes_escaped d cell2 -> cell1 = cell2.
Proof.
  intros H; revert cell2.
  induction H as [|d cell H IH|c d cell Hc H IH]; intros cell2 H2;
    inversion H2; subst; try congruence.
  - now rewrite (IH _ H1).
  - now rewrite (IH _ H5).
Qed.

Lemma table_row_str (n d p : string) :
  table_row {| name := YStr n; description := YStr d; path := p |} =
  Ok (row_text ("[" ++ n ++ "](" ++ p ++ ")")
        (PyStr.replace d "|" "\|")
        (if existsb (fun keyword => PyStr.contains keyword (PyStr.lower d))
              keywords
         then "Auto-invoked" else "/" ++ n)).
Proof.
  unfold table_row, generate_command. cbn [name description path].
  rewrite is_auto_invoked_str. reflexivity.
Qed.

(** C2. The classifier answers true exactly when the lowered description
    contains "always", "automatically" or "every"; it answers false for an
    empty and for an absent ([None]) description; the command is
    "Auto-invoked" when it answers true and "/" followed by the name as it is
    otherwise, and that is the Command cell of the row. *)
Theorem command_cell_classified (skill_name d p : string) :
  exists auto : bool,
    is_auto_invoked (YStr d) = Ok auto /\
    (auto = true <->
     exists keyword pre post,
       (keyword = "always" \/ keyword = "automatically" \/ keyword = "every")
       /\ PyStr.lower d = pre ++ keyword ++ post) /\
    is_auto_invoked (YStr "") = Ok false /\
    is_auto_invoked YNull = Ok false /\
    generate_command skill_name (YStr d) =
      Ok (if auto then "Auto-invoked" else "/" ++ skill_name) /\
    exists cell,
      table_row {| name := YStr skill_name; description := YStr d;
                   path := p |} =
      Ok (row_text ("[" ++ skill_name ++ "](" ++ p ++ ")") cell
            (if auto then "Auto-invoked" else "/" ++ skill_name)).
Proof.
  eexists. split; [apply is_auto_invoked_str|].
  split; [|split; [reflexivity | split; [reflexivity | split]]].
  - unfold keywords. cbn [existsb]. rewrite !orb_true_iff, !contains_iff.
    split.
    + intros [(pre & post & H) | [(pre & post & H) | [(pre & post & H) | H]]];
        try discriminate; eexists _, pre, post; (split; [|exact H]); auto.
    + intros (keyword & pre & post & [-> | [-> | ->]] & H);
        [left | right; left | right; right; left]; now exists pre, post.
  - unfold generate_command. now rewrite is_auto_invoked_str.
  - eexists. apply table_row_str.
Qed.

(** C3. The Description cell of the row of a record is its description with
    every pipe replaced by a backslash and a pipe and no other character
    altered; the text so described is unique. *)
Theorem description_cell_escaped (n d p : string) :
  exists cell command,
    table_row {| name := YStr n; description := YStr d; path := p |} =
      Ok (row_text ("[" ++ n ++ "](" ++ p ++ ")") cell command) /\
    pipes_escaped d cell /\
    forall cell', pipes_escaped d cell' -> cell' = cell.
Proof.
  eexists _, _. split; [apply table_row_str|].
  split; [apply replace_pipe_escaped|].
  intros cell' H. eapply pipes_escaped_unique; [exact H|].
  apply replace_pipe_escaped.
Qed.

(** ** [generate_readme] *)

Lemma append_rows_inv (skills : list skill) (readme doc : string) :
  append_rows readme skills = Ok doc ->
  exists rows, rows_of skills rows /\ doc = readme ++ join rows.
Proof.
  revert readme; induction skills as [|x skills IH]; intros readme; simpl.
  - intros [= <-]. exists []. split; [constructor|].
    simpl. now rewrite append_nil_r.
  - destruct (table_row x) as [row|] eqn:Ex; [|discriminate]. simpl.
    intros H. destruct (IH _ H) as (rows & Hrows & ->).
    exists (row :: rows). split; [now constructor|].
    simpl. now rewrite append_assoc.
Qed.

Lemma table_row_ok (x : skill) :
  str_valued x -> exists row, table_row x = Ok row.
Proof.
  destruct x as [n d p]. intros [[n' Hn] [d' Hd]]. simpl in *. subst.
  eexists. apply table_row_str.
Qed.

Lemma append_rows_ok (skills : list skill) (readme : string) :
  Forall str_valued skills -> exists doc, append_rows readme skills = Ok doc.
Proof.
  intros H; revert readme.
  induction H as [|x skills Hx _ IH]; intros readme; simpl.
  - now eexists.
  - destruct (table_row_ok x Hx) as [row ->]. simpl. apply IH.
Qed.

Lemma generate_readme_unfold (skills : list skill) (timestamp : string) :
  generate_readme skills timestamp =
  (fst (list_sort sort_key skills),
   _ <- snd (list_sort sort_key skills);;
   readme <- append_rows header (fst (list_sort sort_key skills));;
   Ok (readme ++ footer timestamp)).
Proof.
  unfold generate_readme.
  change (fun x : skill => py_lower (name x)) with sort_key.
  now destruct (list_sort sort_key skills).
Qed.

Lemma str_named_has_key (x : skill) : str_named x -> has_key sort_key x.
Proof.
  intros [n Hn]. exists (PyStr.lower n). unfold sort_key. now rewrite Hn.
Qed.

Lemma str_named_keys (skills : list skill) :
  Forall str_named skills -> Forall (has_key sort_key) skills.
Proof. apply Forall_impl, str_named_has_key. Qed.

(** After a sort that did not raise every name is a [str]: the last branch
    of [table_row] is not taken in [generate_readme]. *)
Lemma sorted_names_str (skills sorted : list skill) :
  list_sort sort_key skills = (sorted, Ok tt) -> Forall str_named sorted.
Proof.
  intros H. apply list_sort_inv in H as [(_ & kl & Hkl & ->) | (e & ? & _)];
    [|discriminate].
  destruct (decorate_ok sort_key _ _ Hkl) as [_ Hd].
  apply (sorted_decorated sort_key) in Hd.
  rewrite Forall_map. eapply Forall_impl; [|exact Hd].
  intros [k x]. unfold decorated, sort_key, py_lower, str_named. simpl.
  destruct (name x); try discriminate. intros _. eexists. reflexivity.
Qed.

(** C10. [generate_readme] sorts the list it is given: after the call the
    caller's list holds the same records in the order of their lowered
    names, records of one key in their former order; it is the list it was
    only if that was sorted already. *)
Theorem generate_readme_sorts_argument
    (skills : list skill) (timestamp : string) :
  Forall str_named skills ->
  let after := fst (generate_readme skills timestamp) in
  Permutation skills after /\
  StronglySorted (elem_le sort_key) after /\
  (forall k, filter (elem_keyed sort_key k) after
             = filter (elem_keyed sort_key k) skills) /\
  (after = skills <-> StronglySorted (elem_le sort_key) skills).
Proof.
  intros H. apply str_named_keys in H.
  rewrite generate_readme_unfold. cbn [fst].
  destruct (list_sort_ok sort_key skills H) as (l' & E & Hp & Hs & Hst).
  rewrite E. cbn [fst]. repeat split; trivial.
  - now intros <-.
  - intros Hsorted.
    rewrite (list_sort_sorted_id sort_key skills H Hsorted) in E.
    now injection E.
Qed.

(** C4. The rows of the document are the rows of the records sorted by
    lowered name, ascending; records of one lowered name keep the order in
    which they came; and the sequence of lowered names down the table is the
    same for every order in which the records may come. *)
Theorem rows_sorted_by_name (skills : list skill) (timestamp : string) :
  Forall str_valued skills ->
  exists sorted rows,
    snd (generate_readme skills timestamp)
      = Ok (header ++ join rows ++ footer timestamp) /\
    rows_of sorted rows /\
    Permutation skills sorted /\
    StronglySorted (elem_le sort_key) sorted /\
    (forall k, filter (elem_keyed sort_key k) sorted
               = filter (elem_keyed sort_key k) skills) /\
    (forall skills2 timestamp2,
        Permutation skills skills2 ->
        map sort_key (fst (generate_readme skills2 timestamp2))
        = map sort_key sorted).
Proof.
  intros Hv.
  assert (Forall (has_key sort_key) skills) as H
    by (eapply Forall_impl; [|exact Hv]; intros x [Hx _];
        now apply str_named_has_key).
  destruct (list_sort_ok sort_key skills H) as (l' & E & Hp & Hs & Hst).
  assert (Forall str_valued l') as Hv'
    by (eapply Permutation_Forall; eassumption).
  destruct (append_rows_ok l' header Hv') as [doc Hdoc].
  destruct (append_rows_inv _ _ _ Hdoc) as (rows & Hrows & ->).
  exists l', rows. rewrite generate_readme_unfold, E. cbn [fst snd bind].
  rewrite Hdoc. cbn [bind]. rewrite append_assoc.
  repeat split; trivial.
  intros skills2 timestamp2 Hp2.
  assert (Forall (has_key sort_key) skills2) as H2
    by (eapply Permutation_Forall; eassumption).
  destruct (list_sort_ok sort_key skills2 H2) as (l2 & E2 & _).
  rewrite generate_readme_unfold, E2. cbn [fst].
  eapply list_sort_keys; [symmetry; exact Hp2 | exact E2 | exact E].
Qed.

(** C8. Two runs of the renderer on the same records, the second on the
    list as the first left it or on the list as it was, give the same header
    and rows and differ at most in the timestamp of the last line; when one
    raises, the other raises the same exception. *)
Theorem generate_readme_deterministic
    (skills : list skill) (timestamp1 timestamp2 : string) :
  let run1 := generate_readme skills timestamp1 in
  let again := generate_readme (fst run1) timestamp2 in
  let fresh := generate_readme skills timestamp2 in
  fst again = fst run1 /\ fst fresh = fst run1 /\ snd fresh = snd again /\
  ((exists sorted rows,
       rows_of sorted rows /\
       let table := header ++ join rows ++ nl ++ "---" ++ nl in
       snd run1 = Ok (table ++ "*Last updated: " ++ timestamp1 ++ "*" ++ nl) /\
       snd again = Ok (table ++ "*Last updated: " ++ timestamp2 ++ "*" ++ nl))
   \/ (exists e, snd run1 = Raise e /\ snd again = Raise e)).
Proof.
  cbv zeta. rewrite !generate_readme_unfold. cbn [fst snd].
  destruct (list_sort sort_key skills) as [l' r] eqn:E. cbn [fst snd].
  destruct (list_sort_inv sort_key _ _ _ E)
    as [(-> & _) | (e & -> & -> & _)].
  - rewrite (list_sort_idem sort_key _ _ E). cbn [fst snd bind].
    repeat split.
    destruct (append_rows header l') as [doc|e] eqn:Hdoc; cbn [bind].
    + left. destruct (append_rows_inv _ _ _ Hdoc) as (rows & Hrows & ->).
      exists l', rows. split; [exact Hrows|]. unfold footer.
      now rewrite !append_assoc.
    + right. now exists e.
  - rewrite E. cbn [fst snd bind]. repeat split. right. now exists e.
Qed.

(** ** [parse_frontmatter] *)

(** C7, as the code has it. The extractor finds a block exactly when the
    content starts with three hyphens, then whitespace, a newline, a
    body, a newline, three hyphens, whitespace and a newline: whitespace may
    follow each marker, none may come before it. *)
Theorem frontmatter_found_iff (content : string) :
  Pattern.frontmatter content <> None <-> has_block content.
Proof.
  split.
  - destruct (Pattern.frontmatter content) as [body|] eqn:E; [|easy].
    intros _. apply frontmatter_sound in E as (ws1 & ws2 & rest & H).
    now exists ws1, body, ws2, rest.
  - intros (ws1 & body & ws2 & rest & H1 & H2 & ->).
    unfold Pattern.frontmatter.
    replace (PyStr.strip_prefix "---" _)
      with (Some (ws1 ++ nl ++ body ++ nl ++ "---" ++ ws2 ++ nl ++ rest))
      by (symmetry; now apply strip_prefix_iff).
    apply opening_complete; [exact H1|].
    apply closing_iff. now exists ws2, rest.
Qed.

(** C7, as the specification words it, fails: a space before the first
    marker makes a block in those words, and the extractor finds none. *)
Lemma leading_space_not_found :
  claimed_block indented_md /\ Pattern.frontmatter indented_md = None.
Proof.
  split; [|reflexivity].
  exists " ---", "name: x", "---", "".
  repeat split.
  - now exists " ", "".
  - now exists "", "".
Qed.

(** C6. The extractor returns the empty mapping, and raises nothing, when
    no block is found and when the block is found and [safe_load] raises
    [YAMLError] on its text. *)
Theorem parse_frontmatter_empty_mapping
    (safe_load : string -> result yaml_value) (file : skill_file) :
  Pattern.frontmatter (file_text file) = None \/
  (exists text, Pattern.frontmatter (file_text file) = Some text /\
                safe_load text = Raise YAMLError) ->
  parse_frontmatter safe_load file = Ok (YMap []).
Proof.
  unfold parse_frontmatter. intros [-> | (text & -> & ->)]; reflexivity.
Qed.

Lemma parse_frontmatter_empty_mapping_witness :
  parse_frontmatter sample_load (md "plain/SKILL.md" plain_md) = Ok (YMap [])
  /\ parse_frontmatter sample_load (md "broken/SKILL.md" broken_md)
     = Ok (YMap []).
Proof.
  split; apply parse_frontmatter_empty_mapping.
  - left. reflexivity.
  - right. exists "name: [". split; reflexivity.
Defined.

(** C9. When the block decodes, the extractor returns the decoded value as
    it is if it is truthy, a mapping or not, and the empty mapping only if
    it is falsy. *)
Theorem parse_frontmatter_keeps_truthy
    (safe_load : string -> result yaml_value) (file : skill_file)
    (text : string) (v : yaml_value) :
  Pattern.frontmatter (file_text file) = Some text ->
  safe_load text = Ok v ->
  parse_frontmatter safe_load file = Ok (if truthy v then v else YMap []).
Proof.
  unfold parse_frontmatter. intros -> ->. reflexivity.
Qed.

Lemma parse_frontmatter_keeps_truthy_witness :
  parse_frontmatter sample_load (md "list/SKILL.md" list_md)
  = Ok (YSeq [YStr "name"; YStr "description"])
  /\ parse_frontmatter sample_load (md "empty/SKILL.md" empty_md)
     = Ok (YMap []).
Proof.
  split.
  - apply (parse_frontmatter_keeps_truthy sample_load
             (md "list/SKILL.md" list_md) "- name
- description" (YSeq [YStr "name"; YStr "description"])); reflexivity.
  - apply (parse_frontmatter_keeps_truthy sample_load
             (md "empty/SKILL.md" empty_md) "" YNull); reflexivity.
Defined.

(** ** [main] *)

Lemma generate_readme_ok (skills : list skill) (timestamp : string) :
  Forall str_valued skills ->
  exists sorted rows,
    generate_readme skills timestamp
      = (sorted, Ok (header ++ join rows ++ footer timestamp)) /\
    rows_of sorted rows /\
    Permutation skills sorted /\
    StronglySorted (elem_le sort_key) sorted /\
    (forall k, filter (elem_keyed sort_key k) sorted
               = filter (elem_keyed sort_key k) skills).
Proof.
  intros Hv.
  assert (Forall (has_key sort_key) skills) as H
    by (eapply Forall_impl; [|exact Hv]; intros x [Hx _];
        now apply str_named_has_key).
  destruct (list_sort_ok sort_key skills H) as (l' & E & Hp & Hs & Hst).
  assert (Forall str_valued l') as Hv'
    by (eapply Permutation_Forall; eassumption).
  destruct (append_rows_ok l' header Hv') as [doc Hdoc].
  destruct (append_rows_inv _ _ _ Hdoc) as (rows & Hrows & ->).
  exists l', rows. rewrite generate_readme_unfold, E. cbn [fst snd bind].
  rewrite Hdoc. cbn [bind]. rewrite append_assoc. repeat split; trivial.
Qed.

(** *** Discovery *)

Lemma length_append (a b : string) :
  String.length (a ++ b) = String.length a + String.length b.
Proof. induction a as [|x a IH]; simpl; [reflexivity | now rewrite IH]. Qed.

Lemma append_cancel_r (a b c : string) : a ++ c = b ++ c -> a = b.
Proof.
  revert b; induction a as [|x a IH]; intros [|y b] H; simpl in H.
  - reflexivity.
  - apply (f_equal String.length) in H. simpl in H.
    rewrite length_append in H. lia.
  - apply (f_equal String.length) in H. simpl in H.
    rewrite length_append in H. lia.
  - injection H as -> H. f_equal. now apply IH.
Qed.

Lemma skill_path_inj (a b : dir_entry) :
  skill_path a = skill_path b -> entry_name a = entry_name b.
Proof. apply append_cancel_r. Qed.

Lemma find_skill_files_In (fs : filesystem) (f : skill_file) :
  In f (find_skill_files fs) <->
  exists item text,
    In item (listing fs) /\ entry_is_dir item = true /\
    PyStr.startswith (entry_name item) "." = false /\
    skill_md item = Some text /\
    f = {| file_path := skill_path item; file_text := text |}.
Proof.
  unfold find_skill_files. rewrite in_flat_map. split.
  - intros (item & Hin & Hf).
    destruct (entry_is_dir item) eqn:Ed; [|destruct Hf].
    destruct (PyStr.startswith (entry_name item) ".") eqn:Eh; [destruct Hf|].
    destruct (skill_md item) as [text|] eqn:Et; [|destruct Hf].
    destruct Hf as [<- | []]. now exists item, text.
  - intros (item & text & Hin & Ed & Eh & Et & ->).
    exists item. split; [exact Hin|]. rewrite Ed, Eh, Et. now left.
Qed.

Lemma NoDup_map_inj {B C : Type} (g : B -> C) (l : list B) (a b : B) :
  NoDup (map g l) -> In a l -> In b l -> g a = g b -> a = b.
Proof.
  induction l as [|x l IH]; simpl; intros Hnd Ha Hb E; [destruct Ha|].
  apply NoDup_cons_iff in Hnd as [Hx Hnd].
  destruct Ha as [-> | Ha], Hb as [-> | Hb]; trivial.
  - elim Hx. rewrite E. now apply in_map.
  - elim Hx. rewrite <- E. now apply in_map.
  - now apply IH.
Qed.

Lemma find_skill_files_NoDup (fs : filesystem) :
  NoDup (map entry_name (listing fs)) ->
  NoDup (map file_path (find_skill_files fs)).
Proof.
  unfold find_skill_files. induction (listing fs) as [|item l IH]; simpl.
  - constructor.
  - intros Hnd. apply NoDup_cons_iff in Hnd as [Hnew Hnd].
    specialize (IH Hnd). rewrite map_app. 
    destruct (entry_is_dir item && negb (PyStr.startswith (entry_name item) "."));
      [|exact IH].
    destruct (skill_md item) as [text|]; [|exact IH].
    simpl. constructor; [|exact IH].
    intros Hin. apply in_map_iff in Hin as (f & Hp & Hf).
    apply in_flat_map in Hf as (item' & Hin' & Hf).
    destruct (entry_is_dir item' && negb (PyStr.startswith (entry_name item') "."));
      [|destruct Hf].
    destruct (skill_md item'); [|destruct Hf].
    destruct Hf as [<- | []]. simpl in Hp.
    apply Hnew. rewrite <- (skill_path_inj _ _ Hp). now apply in_map.
Qed.

Section MainFacts.

Variable safe_load : string -> result yaml_value.

Lemma parse_each_ok (files : list skill_file) :
  Forall (fun f => exists r, examine safe_load f = Ok r) files ->
  forall skills out,
    parse_each safe_load files skills out
    = ((skills ++ flat_map (built safe_load) files)%list,
       (out ++ flat_map (report safe_load) files)%list,
       Ok tt).
Proof.
  induction 1 as [|f files [r Hr] _ IH]; intros skills out; simpl.
  - now rewrite !app_nil_r.
  - unfold built at 1, report at 1. rewrite Hr.
    destruct r as [x|]; rewrite IH.
    + now rewrite <- !app_assoc.
    + now rewrite <- !app_assoc.
Qed.

Lemma main_unfold (fs : filesystem) (timestamp : string) :
  main safe_load fs timestamp =
  match find_skill_files fs with
  | [] => {| printed := [NoSkillFiles]; readme_after := readme_md fs;
             status := Ok tt |}
  | skill_files =>
      let '(skills, out, r) := parse_each safe_load skill_files [] [] in
      match r with
      | Raise e => {| printed := out; readme_after := readme_md fs;
                      status := Raise e |}
      | Ok _ =>
          match skills with
          | [] => {| printed := (out ++ [NoValidSkills])%list;
                     readme_after := readme_md fs; status := Ok tt |}
          | _ =>
              match generate_readme skills timestamp with
              | (_, Raise e) =>
                  {| printed := out; readme_after := readme_md fs;
                     status := Raise e |}
              | (skills', Ok readme_content) =>
                  {| printed := (out ++ [Generated (List.length skills')])%list;
                     readme_after := Some readme_content;
                     status := Ok tt |}
              end
          end
      end
  end.
Proof.
  unfold main. destruct (find_skill_files fs) as [|f files]; [reflexivity|].
  destruct (parse_each safe_load (f :: files) [] []) as [[skills out] [u|e]];
    destruct skills; reflexivity.
Qed.


(** *** Which files get a row *)

Lemma existsb_find {B : Type} (p : B -> bool) (l : list B) :
  existsb p l = true -> exists x, find p l = Some x.
Proof.
  induction l as [|y l IH]; simpl; [discriminate|].
  destruct (p y); [now exists y | exact IH].
Qed.

Lemma examine_well_formed (f : skill_file) :
  well_formed safe_load f ->
  if frontmatter_has_keys safe_load f
  then exists n d,
      examine safe_load f
      = Ok (Some {| name := YStr n; description := YStr d;
                    path := file_path f |})
  else examine safe_load f = Ok None.
Proof.
  intros (v & Hv & entries & -> & Hstr).
  unfold frontmatter_has_keys, examine. rewrite Hv. cbn [bind py_in has_keys].
  destruct (existsb _ entries) eqn:En; cbn [andb bind]; [|reflexivity].
  destruct (existsb (fun kv => is_str "description" (fst kv)) entries)
    eqn:Ed; cbn [bind]; [|reflexivity].
  apply existsb_find in En as [kn Hn], Ed as [kd Hd].
  destruct (Hstr "name" (snd kn)) as [n En];
    [now left | cbn; now rewrite Hn |].
  destruct (Hstr "description" (snd kd)) as [d Ed];
    [now right | cbn; now rewrite Hd |].
  exists n, d. cbn [py_getitem]. rewrite Hn, Hd. cbn [bind].
  now rewrite En, Ed.
Qed.

Lemma built_well_formed (f : skill_file) (x : skill) :
  well_formed safe_load f -> In x (built safe_load f) ->
  frontmatter_has_keys safe_load f = true /\
  path x = file_path f /\ str_valued x.
Proof.
  intros Hf. apply examine_well_formed in Hf. unfold built.
  destruct (frontmatter_has_keys safe_load f).
  - destruct Hf as (n & d & ->). intros [<- | []].
    repeat split; [now exists n | now exists d].
  - rewrite Hf. intros [].
Qed.

Lemma built_keys (f : skill_file) :
  well_formed safe_load f -> frontmatter_has_keys safe_load f = true ->
  exists x, In x (built safe_load f) /\ path x = file_path f.
Proof.
  intros Hf Hk. apply examine_well_formed in Hf. rewrite Hk in Hf.
  destruct Hf as (n & d & Hf). unfold built. rewrite Hf.
  eexists. split; [now left | reflexivity].
Qed.

Lemma warnings_naming_app (p : string) (a b : list line) :
  warnings_naming p (a ++ b)%list
  = warnings_naming p a + warnings_naming p b.
Proof. unfold warnings_naming. now rewrite filter_app, length_app. Qed.

Lemma warnings_naming_report (p : string) (g : skill_file) :
  well_formed safe_load g ->
  warnings_naming p (report safe_load g)
  = if frontmatter_has_keys safe_load g then 0
    else if String.eqb p (file_path g) then 1 else 0.
Proof.
  intros Hg. apply examine_well_formed in Hg. unfold report.
  destruct (frontmatter_has_keys safe_load g).
  - destruct Hg as (n & d & ->). reflexivity.
  - rewrite Hg. unfold warnings_naming. simpl.
    now destruct (String.eqb p (file_path g)).
Qed.

Lemma report_warnings_absent (files : list skill_file) (p : string) :
  Forall (well_formed safe_load) files ->
  ~ In p (map file_path files) ->
  warnings_naming p (flat_map (report safe_load) files) = 0.
Proof.
  induction 1 as [|g l Hg _ IH]; intros Hp; [reflexivity|].
  simpl in *. rewrite warnings_naming_app, warnings_naming_report by exact Hg.
  rewrite IH by tauto.
  destruct (frontmatter_has_keys safe_load g); [reflexivity|].
  destruct (String.eqb_spec p (file_path g)); [|reflexivity].
  subst. tauto.
Qed.

Lemma report_warnings (files : list skill_file) :
  Forall (well_formed safe_load) files ->
  NoDup (map file_path files) ->
  forall f, In f files ->
    warnings_naming (file_path f) (flat_map (report safe_load) files)
    = if frontmatter_has_keys safe_load f then 0 else 1.
Proof.
  induction 1 as [|g l Hg Hl IH]; intros Hnd f Hf; [destruct Hf|].
  simpl in Hnd. apply NoDup_cons_iff in Hnd as [Hnew Hnd].
  simpl. rewrite warnings_naming_app, warnings_naming_report by exact Hg.
  destruct Hf as [<- | Hf].
  - rewrite report_warnings_absent by assumption.
    rewrite String.eqb_refl.
    now destruct (frontmatter_has_keys safe_load g).
  - rewrite (IH Hnd f Hf).
    destruct (String.eqb_spec (file_path f) (file_path g)) as [E|_].
    + elim Hnew. rewrite <- E. now apply in_map.
    + now destruct (frontmatter_has_keys safe_load g).
Qed.

(** C1, as the code has it. When every discovered file decodes to a
    mapping in which name and description, where present, are [str]s,
    the run returns normally and the table has a row for a directory
    exactly when that directory is a non-hidden one holding a [SKILL.md]
    whose frontmatter has the keys "name" and "description", whatever
    their values; for a discovered file without one of the keys there is
    no row and exactly one warning naming it, and the files after it are
    still treated. *)
Theorem rows_iff_keys_present (fs : filesystem) (timestamp : string) :
  NoDup (map entry_name (listing fs)) ->
  Forall (well_formed safe_load) (find_skill_files fs) ->
  let run := main safe_load fs timestamp in
  status run = Ok tt /\
  (exists rendered rows,
      rows_of rendered rows /\
      readme_after run
      = match rendered with
        | [] => readme_md fs
        | _ => Some (header ++ join rows ++ footer timestamp)
        end /\
      forall item, In item (listing fs) ->
        ((exists x, In x rendered /\ path x = skill_path item)
         <-> qualifies safe_load item)) /\
  (forall file, In file (find_skill_files fs) ->
      warnings_naming (file_path file) (printed run)
      = if frontmatter_has_keys safe_load file then 0 else 1).
Proof.
  intros Hnd Hwf. cbv zeta.
  assert (Forall str_valued
            (flat_map (built safe_load) (find_skill_files fs))) as Hv.
  { apply Forall_forall. intros x Hx.
    apply in_flat_map in Hx as (f & Hf & Hx).
    rewrite Forall_forall in Hwf.
    now destruct (built_well_formed f x (Hwf f Hf) Hx) as (_ & _ & ?). }
  destruct (generate_readme_ok _ timestamp Hv)
    as (sorted & rows & Egen & Hrows & Hperm & _).
  assert (forall item, In item (listing fs) ->
            ((exists x, In x sorted /\ path x = skill_path item)
             <-> qualifies safe_load item)) as Hiff.
  { intros item Hitem. rewrite Forall_forall in Hwf. split.
    - intros (x & Hx & Hpath).
      apply (Permutation_in _ (Permutation_sym Hperm)) in Hx.
      apply in_flat_map in Hx as (f & Hf & Hx).
      destruct (built_well_formed f x (Hwf f Hf) Hx) as (Hk & Hp & _).
      apply find_skill_files_In in Hf
          as (item' & text & Hin' & Ed & Eh & Et & ->).
      simpl in Hp. rewrite Hp in Hpath.
      assert (item' = item) as <-
        by (eapply NoDup_map_inj; eauto using skill_path_inj).
      repeat split; trivial. now exists text.
    - intros (Ed & Eh & text & Et & Hk).
      assert (In {| file_path := skill_path item; file_text := text |}
                (find_skill_files fs))
        as Hf by (apply find_skill_files_In; now exists item, text).
      destruct (built_keys _ (Hwf _ Hf) Hk) as (x & Hx & Hp).
      exists x. split; [|exact Hp].
      apply (Permutation_in _ Hperm). apply in_flat_map. eauto. }
  assert (forall file final, In file (find_skill_files fs) ->
            warnings_naming (file_path file)
              (flat_map (report safe_load) (find_skill_files fs)
                 ++ [final])%list
            = (if frontmatter_has_keys safe_load file then 0 else 1)
              + warnings_naming (file_path file) [final]) as Hwarn.
  { intros file final Hfile. rewrite warnings_naming_app. f_equal.
    apply report_warnings; trivial. now apply find_skill_files_NoDup. }
  assert (forall skills out,
            parse_each safe_load (find_skill_files fs) skills out
            = ((skills ++ flat_map (built safe_load)
                            (find_skill_files fs))%list,
               (out ++ flat_map (report safe_load)
                         (find_skill_files fs))%list,
               Ok tt)) as Hloop.
  { apply parse_each_ok. eapply Forall_impl; [|exact Hwf]. intros g Hg.
    apply examine_well_formed in Hg.
    destruct (frontmatter_has_keys safe_load g);
      [destruct Hg as (? & ? & ->) | rewrite Hg]; now eexists. }
  rewrite main_unfold.
  destruct (find_skill_files fs) as [|f files'] eqn:Efiles.
  - cbn [flat_map] in Hperm.
    apply Permutation_nil in Hperm. subst sorted.
    split; [reflexivity|]. split; [|intros ? []].
    exists [], []. split; [constructor|]. split; [reflexivity | exact Hiff].
  - rewrite Hloop. cbn [app].
    destruct (flat_map (built safe_load) (f :: files')) as [|x skills'].
    + apply Permutation_nil in Hperm. subst sorted.
      split; [reflexivity|]. split.
      * exists [], []. split; [constructor|].
        split; [reflexivity | exact Hiff].
      * intros file Hfile. cbn [printed]. rewrite Hwarn by exact Hfile.
        unfold warnings_naming. cbn [filter length]. lia.
    + rewrite Egen. cbn [status readme_after printed].
      split; [reflexivity|]. split.
      * exists sorted, rows. split; [exact Hrows|]. split; [|exact Hiff].
        destruct sorted; [|reflexivity].
        apply Permutation_sym, Permutation_nil in Hperm. discriminate.
      * intros file Hfile. rewrite Hwarn by exact Hfile.
        unfold warnings_naming. cbn [filter length]. lia.
Qed.

End MainFacts.


(** ** The statements at the sample documents *)

Ltac solve_well_formed :=
  eexists; split; [reflexivity|];
  eexists; split; [reflexivity|];
  intros key x [-> | ->] H; cbn in H; try discriminate;
  injection H as <-; eexists; reflexivity.

Lemma sample_fs_well_formed :
  Forall (well_formed sample_load) (find_skill_files sample_fs).
Proof. repeat constructor; solve_well_formed. Qed.

Lemma sample_fs_names : NoDup (map entry_name (listing sample_fs)).
Proof.
  repeat constructor; simpl; intros H;
    repeat (destruct H as [H | H]; [discriminate|]); exact H.
Qed.

Lemma rows_iff_keys_present_witness :
  NoDup (map entry_name (listing sample_fs)) /\
  Forall (well_formed sample_load) (find_skill_files sample_fs) /\
  status (main sample_load sample_fs sample_time) = Ok tt /\
  warnings_naming "notes/SKILL.md"
    (printed (main sample_load sample_fs sample_time)) = 1.
Proof.
  split; [exact sample_fs_names|]. split; [exact sample_fs_well_formed|].
  destruct (rows_iff_keys_present sample_load sample_fs sample_time
              sample_fs_names sample_fs_well_formed) as (Hs & _ & Hw).
  split; [exact Hs|].
  apply (Hw (md "notes/SKILL.md" notes_md)).
  simpl. tauto.
Defined.

(** C1, as the specification words it, fails: a description that is
    present and empty does not keep the directory out of the table. *)
Lemma empty_description_gets_row :
  let fs := {| listing := [subdir "gamma" gamma_md]; readme_md := None |} in
  parse_frontmatter sample_load (md "gamma/SKILL.md" gamma_md)
    = Ok (mapping "gamma" "") /\
  has_nonempty_keys (mapping "gamma" "") = false /\
  readme_after (main sample_load fs sample_time)
    = Some (header ++ row_text "[gamma](gamma/SKILL.md)" "" "/gamma"
              ++ footer sample_time).
Proof. repeat split. Qed.


Lemma sample_skills_str : Forall str_valued sample_skills.
Proof. repeat constructor; eexists; reflexivity. Qed.

Lemma rows_sorted_by_name_witness :
  Forall str_valued sample_skills /\
  exists rows,
    snd (generate_readme sample_skills sample_time)
    = Ok (header ++ join rows ++ footer sample_time).
Proof.
  split; [exact sample_skills_str|].
  destruct (rows_sorted_by_name sample_skills sample_time sample_skills_str)
    as (sorted & rows & E & _).
  exists rows. exact E.
Defined.

Lemma generate_readme_sorts_argument_witness :
  Forall str_named sample_skills /\
  Permutation sample_skills (fst (generate_readme sample_skills sample_time)).
Proof.
  assert (Forall str_named sample_skills) as H
    by (repeat constructor; eexists; reflexivity).
  split; [exact H|].
  exact (proj1 (generate_readme_sorts_argument sample_skills sample_time H)).
Defined.

(** * Further properties *)

(** ** Escaping and case *)

Lemma escape_cons (c : ascii) (d : string) :
  PyStr.replace (String c d) "|" "\|" =
  if Ascii.eqb "|" c then "\|" ++ PyStr.replace d "|" "\|"
  else String c (PyStr.replace d "|" "\|").
Proof.
  unfold PyStr.replace. cbn [PyStr.replace_from].
  unfold PyStr.startswith. cbn [PyStr.strip_prefix].
  now destruct (Ascii.eqb "|" c).
Qed.

Lemma escape_head (d r : string) :
  PyStr.replace d "|" "\|" <> String "|" r.
Proof.
  destruct d as [|c d]; [discriminate|]. rewrite escape_cons.
  destruct (Ascii.eqb_spec "|" c) as [<-|Hne]; [discriminate|].
  intros [= ->]. now elim Hne.
Qed.

(** X1. In the escaped description no pipe stands bare: every pipe of the
    cell has a backslash just before it. *)
Theorem escaped_cell_no_bare_pipe (d pre post : string) :
  PyStr.replace d "|" "\|" = pre ++ "|" ++ post ->
  exists pre', pre = pre' ++ "\".
Proof.
  revert pre; induction d as [|c d IH]; intros pre.
  - destruct pre; discriminate.
  - rewrite escape_cons. destruct (Ascii.eqb_spec "|" c) as [<-|Hne].
    + destruct pre as [|a [|b pre]]; try discriminate.
      * intros H. injection H as Ha _. subst a. now exists "".
      * intros H. injection H as Ha Hb H. subst a b.
        destruct (IH _ H) as [pre' ->].
        now exists (String "\" (String "|" pre')).
    + destruct pre as [|a pre].
      * intros H. injection H as Ha _. now elim Hne.
      * intros H. injection H as Ha H. subst a.
        destruct (IH _ H) as [pre' ->].
        now exists (String c pre').
Qed.

Lemma escaped_cell_no_bare_pipe_witness :
  exists pre', "a\" = pre' ++ "\".
Proof.
  apply (escaped_cell_no_bare_pipe "a|b" "a\" "b"). reflexivity.
Defined.

(** X2. Escaping loses nothing: replacing every backslash-pipe of the cell
    by a pipe, with the same [str.replace], gives the description back. *)
Theorem escape_round_trip (d : string) :
  PyStr.replace (PyStr.replace d "|" "\|") "\|" "|" = d.
Proof.
  induction d as [|c d IH]; [reflexivity|].
  rewrite escape_cons. unfold PyStr.replace at 1. unfold PyStr.replace in IH at 1.
  destruct (Ascii.eqb_spec "|" c) as [<-|Hne].
  - cbn. f_equal. exact IH.
  - cbn [PyStr.replace_from]. unfold PyStr.startswith.
    cbn [PyStr.strip_prefix].
    destruct (Ascii.eqb_spec "\" c) as [<-|_].
    + destruct (PyStr.replace d "|" "\|") as [|b r] eqn:E.
      * f_equal. exact IH.
      * destruct (Ascii.eqb_spec "|" b) as [<-|_].
        -- now elim (escape_head d r).
        -- f_equal. exact IH.
    + f_equal. exact IH.
Qed.

Lemma lower_char_idem (c : ascii) :
  PyStr.lower_char (PyStr.lower_char c) = PyStr.lower_char c.
Proof. destruct c as [[] [] [] [] [] [] [] []]; reflexivity. Qed.

Lemma lower_idem (s : string) : PyStr.lower (PyStr.lower s) = PyStr.lower s.
Proof.
  induction s as [|c s IH]; simpl; [reflexivity|].
  now rewrite lower_char_idem, IH.
Qed.

(** X3. Lowering is idempotent, so the classifier and the sort key do not
    tell a text from its lowered form. *)
Theorem classifier_ignores_case (n d p : string) :
  PyStr.lower (PyStr.lower d) = PyStr.lower d /\
  is_auto_invoked (YStr (PyStr.lower d)) = is_auto_invoked (YStr d) /\
  sort_key (record (PyStr.lower n) d p) = sort_key (record n d p).
Proof.
  split; [apply lower_idem|]. split.
  - now rewrite !is_auto_invoked_str, lower_idem.
  - unfold sort_key, record. cbn. now rewrite lower_idem.
Qed.

(** ** Where the block ends *)

Lemma append_cancel_l (a b c : string) : a ++ b = a ++ c -> b = c.
Proof. induction a as [|x a IH]; simpl; [easy | intros [= H]; auto]. Qed.

Lemma lazy_body_first (s body : string) :
  Pattern.lazy_body s = Some body ->
  forall before after,
    s = before ++ after -> Pattern.closing after = true ->
    exists more, before = body ++ more.
Proof.
  revert body; induction s as [|c s IH]; intros body;
    rewrite lazy_body_unfold; destruct (Pattern.closing _) eqn:E.
  - intros [= <-] before after _ _. now exists before.
  - discriminate.
  - intros [= <-] before after _ _. now exists before.
  - destruct (Pattern.lazy_body s) as [b|]; [|discriminate].
    intros [= <-] [|x before] after Hs Hc; simpl in Hs.
    + subst after. congruence.
    + injection Hs as <- Hs. destruct (IH b eq_refl _ _ Hs Hc) as [more ->].
      now exists more.
Qed.

Lemma opening_lazy (s body : string) :
  Pattern.opening s = Some body ->
  exists ws t, all_space ws = true /\ s = ws ++ nl ++ body ++ t /\
               Pattern.lazy_body (body ++ t) = Some body.
Proof.
  induction s as [|c s IH]; simpl; [discriminate|].
  destruct (PyStr.is_space c) eqn:Hc; [|discriminate].
  destruct (Pattern.opening s) as [b|].
  - intros [= <-]. destruct (IH eq_refl) as (ws & t & Hws & -> & Ht).
    exists (String c ws), t. simpl. now rewrite Hc, Hws.
  - destruct (Ascii.eqb_spec c newline) as [->|]; [|discriminate].
    intros H. destruct (lazy_body_sound _ _ H) as (t & -> & _).
    now exists "", t.
Qed.

(** X4. The captured block ends at the first closing marker: wherever,
    from the start of the captured text on, a newline, three hyphens,
    whitespace and a newline are found, the captured text has ended. *)
Theorem frontmatter_ends_at_first_marker (content body : string) :
  Pattern.frontmatter content = Some body ->
  exists ws t,
    all_space ws = true /\
    content = "---" ++ ws ++ nl ++ body ++ t /\
    Pattern.closing t = true /\
    forall before after,
      body ++ t = before ++ after -> Pattern.closing after = true ->
      exists more, before = body ++ more.
Proof.
  unfold Pattern.frontmatter.
  destruct (PyStr.strip_prefix "---" content) as [r|] eqn:E; [|discriminate].
  apply strip_prefix_iff in E. subst content. intros H.
  apply opening_lazy in H as (ws & t & Hws & -> & Hl).
  exists ws, t. repeat split; trivial.
  - destruct (lazy_body_sound _ _ Hl) as (t' & Ht & Hc).
    apply append_cancel_l in Ht. now subst t'.
  - now apply lazy_body_first.
Qed.

Lemma frontmatter_ends_at_first_marker_witness :
  exists ws t,
    all_space ws = true /\
    alpha_md = "---" ++ ws ++ nl ++ "name: Alpha Tool
description: Always runs on save" ++ t /\
    Pattern.closing t = true.
Proof.
  destruct (frontmatter_ends_at_first_marker alpha_md "name: Alpha Tool
description: Always runs on save" eq_refl) as (ws & t & H1 & H2 & H3 & _).
  now exists ws, t.
Defined.

(** ** The key test *)

Section ExamineFacts.

Variable safe_load : string -> result yaml_value.

(** X5. On a frontmatter that is a mapping the loop body never raises: the
    subscripts are guarded by the key test.  It builds a record exactly when
    both keys are there, from the values the mapping holds for them and the
    path of the file. *)
Theorem mapping_never_raises (file : skill_file)
    (entries : list (yaml_value * yaml_value)) :
  parse_frontmatter safe_load file = Ok (YMap entries) ->
  exists r,
    examine safe_load file = Ok r /\
    match r with
    | Some x =>
        has_keys (YMap entries) = true /\
        py_getitem (YMap entries) "name" = Ok (name x) /\
        py_getitem (YMap entries) "description" = Ok (description x) /\
        path x = file_path file
    | None => has_keys (YMap entries) = false
    end.
Proof.
  intros Hv. unfold examine. rewrite Hv. cbn [bind py_in has_keys].
  destruct (existsb _ entries) eqn:En; cbn [andb bind];
    [|now exists None].
  destruct (existsb (fun kv => is_str "description" (fst kv)) entries)
    eqn:Ed; cbn [bind]; [|now exists None].
  apply existsb_find in En as [kn Hn], Ed as [kd Hd].
  cbn [py_getitem]. rewrite Hn, Hd. cbn [bind].
  eexists. split; [reflexivity|]. now repeat split.
Qed.

(** X6. A frontmatter that is not a mapping never gives a record: the loop
    body raises [TypeError] (always so for a number, a boolean or a date,
    and for a sequence or a text in which both keys are found) or takes the
    warning branch. *)
Theorem non_mapping_never_builds (file : skill_file) (v : yaml_value) :
  parse_frontmatter safe_load file = Ok v ->
  is_mapping v = false ->
  (examine safe_load file = Raise TypeError \/
   examine safe_load file = Ok None) /\
  (py_in "name" v = Ok true -> py_in "description" v = Ok true ->
   examine safe_load file = Raise TypeError) /\
  (match v with YStr _ | YSeq _ => False | _ => True end ->
   examine safe_load file = Raise TypeError).
Proof.
  intros Hv Hm. unfold examine. rewrite Hv. cbn [bind].
  destruct v as [| b | z | t | s | items | entries]; try discriminate;
    cbn [py_in bind].
  1-4: now repeat split; auto.
  - destruct (PyStr.contains "name" s); cbn [bind];
      [destruct (PyStr.contains "description" s); cbn [bind py_getitem]|];
      (split; [auto | split; [intros; congruence | intros []]]).
  - destruct (existsb (is_str "name") items); cbn [bind];
      [destruct (existsb (is_str "description") items);
       cbn [bind py_getitem]|];
      (split; [auto | split; [intros; congruence | intros []]]).
Qed.

End ExamineFacts.

Lemma mapping_never_raises_witness :
  exists r, examine sample_load (md "alpha/SKILL.md" alpha_md) = Ok r.
Proof.
  destruct (mapping_never_raises sample_load (md "alpha/SKILL.md" alpha_md)
              _ eq_refl) as (r & Hr & _).
  now exists r.
Defined.

Lemma non_mapping_never_builds_witness :
  examine sample_load (md "list/SKILL.md" list_md) = Raise TypeError.
Proof.
  destruct (non_mapping_never_builds sample_load (md "list/SKILL.md" list_md)
              (YSeq [YStr "name"; YStr "description"]) eq_refl eq_refl)
    as (_ & H & _).
  apply H; reflexivity.
Defined.

(** ** Discovery *)

Lemma find_skill_files_filter (l : list dir_entry) (old1 old2 : option string) :
  find_skill_files {| listing := filter discoverable l; readme_md := old1 |}
  = find_skill_files {| listing := l; readme_md := old2 |}.
Proof.
  unfold find_skill_files. cbn [listing].
  induction l as [|item l IH]; [reflexivity|].
  cbn [filter flat_map]. unfold discoverable at 1.
  destruct (entry_is_dir item && negb (PyStr.startswith (entry_name item) "."))
    eqn:E; cbn [andb].
  - destruct (skill_md item) as [text|] eqn:Et.
    + cbn [flat_map]. now rewrite E, Et, IH.
    + exact IH.
  - exact IH.
Qed.

(** X7. Plain files, hidden directories and directories without a
    [SKILL.md] count for nothing: without them the same files are found and
    the run is the same. *)
Theorem run_ignores_other_entries
    (safe_load : string -> result yaml_value)
    (fs : filesystem) (timestamp : string) :
  find_skill_files (only_discoverable fs) = find_skill_files fs /\
  main safe_load (only_discoverable fs) timestamp
  = main safe_load fs timestamp.
Proof.
  assert (find_skill_files (only_discoverable fs) = find_skill_files fs) as H.
  { destruct fs as [l old]. apply find_skill_files_filter. }
  split; [exact H|]. unfold main. rewrite H. reflexivity.
Qed.

(** X8. Every file found is the [SKILL.md] of a listed, non-hidden
    directory, with its text; there is at most one per entry, and entries
    of different names give different paths. *)
Theorem found_files_distinct (fs : filesystem) :
  (forall f, In f (find_skill_files fs) ->
     exists item,
       In item (listing fs) /\ discoverable item = true /\
       file_path f = entry_name item ++ "/SKILL.md" /\
       skill_md item = Some (file_text f)) /\
  List.length (find_skill_files fs) <= List.length (listing fs) /\
  (NoDup (map entry_name (listing fs)) ->
   NoDup (map file_path (find_skill_files fs))).
Proof.
  split; [|split].
  - intros f Hf.
    apply find_skill_files_In in Hf as (item & text & Hin & Ed & Eh & Et & ->).
    exists item. unfold discoverable. rewrite Ed, Eh, Et. now repeat split.
  - unfold find_skill_files. induction (listing fs) as [|item l IH];
      [reflexivity|].
    cbn [flat_map]. rewrite length_app. cbn [List.length].
    destruct (entry_is_dir item && _); [|cbn; lia].
    destruct (skill_md item); cbn; lia.
  - apply find_skill_files_NoDup.
Qed.

Lemma found_files_distinct_witness :
  NoDup (map file_path (find_skill_files sample_fs)).
Proof.
  apply (proj2 (proj2 (found_files_distinct sample_fs))).
  exact sample_fs_names.
Defined.

(** ** Exceptions in the renderer *)

Lemma sort_key_raise (x : skill) (e : exn) :
  sort_key x = Raise e -> e = AttributeError.
Proof.
  unfold sort_key, py_lower. destruct (name x); congruence.
Qed.

Lemma decorate_raises {A : Type} (key : A -> result string) (l : list A) :
  Exists (fun x => forall k, key x <> Ok k) l ->
  exists e, decorate key l = Raise e.
Proof.
  induction 1 as [x l Hx | x l _ [e IH]]; simpl.
  - destruct (key x) as [k|e]; [now elim (Hx k) | now exists e].
  - destruct (key x) as [k|e']; simpl; [|now exists e'].
    rewrite IH. now exists e.
Qed.

(** X9. If the name of some record is [None], a boolean, a number, a date,
    a list or a mapping (the decoded values that have no [lower] method),
    the renderer raises [AttributeError] from the sort key and the caller's
    list is left in the order it had. *)
Theorem name_without_lower_aborts_sort
    (skills : list skill) (timestamp : string) :
  Exists (fun x => without_lower (name x) = true) skills ->
  generate_readme skills timestamp = (skills, Raise AttributeError).
Proof.
  intros H. rewrite generate_readme_unfold.
  assert (exists e, decorate sort_key skills = Raise e) as [e He].
  { apply decorate_raises. eapply Exists_impl; [|exact H].
    intros x Hx k. unfold sort_key, py_lower. cbv beta in Hx.
    remember (name x) as v eqn:Ev. destruct v; simpl in Hx; congruence. }
  destruct (decorate_raise sort_key _ _ He) as (y & _ & Hy).
  apply sort_key_raise in Hy. subst e.
  unfold list_sort. rewrite He. reflexivity.
Qed.

Lemma name_without_lower_aborts_sort_witness :
  let skills := [record "b" "d" "b/SKILL.md";
                 {| name := YInt 7; description := YStr "d";
                    path := "a/SKILL.md" |}] in
  generate_readme skills sample_time = (skills, Raise AttributeError).
Proof.
  cbv zeta. apply name_without_lower_aborts_sort.
  apply Exists_cons_tl, Exists_cons_hd. reflexivity.
Defined.

Lemma table_row_raise (x : skill) (e : exn) :
  table_row x = Raise e -> e = AttributeError.
Proof.
  unfold table_row, generate_command, is_auto_invoked, py_lower, py_replace.
  destruct (name x); try congruence.
  destruct (description x) as [| b | z | t | d | items | entries];
    cbn [truthy negb bind]; try congruence;
    repeat match goal with
           | |- context [if ?c then _ else _] => destruct c; cbn [negb bind]
           end; congruence.
Qed.

Lemma table_row_described (x : skill) (row : string) :
  table_row x = Ok row -> str_described x.
Proof.
  unfold table_row, generate_command, is_auto_invoked, py_lower, py_replace,
    str_described.
  destruct (name x); try discriminate.
  destruct (description x) as [| b | z | t | d | items | entries];
    cbn [truthy negb bind]; try discriminate;
    try (intros _; eexists; reflexivity);
    repeat match goal with
           | |- context [if ?c then _ else _] => destruct c; cbn [negb bind]
           end; discriminate.
Qed.

Lemma append_rows_raise (skills : list skill) (readme : string) (e : exn) :
  append_rows readme skills = Raise e -> e = AttributeError.
Proof.
  revert readme; induction skills as [|x skills IH]; intros readme; simpl.
  - discriminate.
  - destruct (table_row x) as [row|e'] eqn:Ex; simpl.
    + apply IH.
    + intros [= <-]. eapply table_row_raise, Ex.
Qed.

(** In whatever order the records come out of the sort, a description that
    is not a [str] makes the renderer raise. *)
Lemma generate_readme_undescribed (skills : list skill) (timestamp : string) :
  Exists (fun x => ~ str_described x) skills ->
  exists sorted e, generate_readme skills timestamp = (sorted, Raise e).
Proof.
  intros Hd. rewrite generate_readme_unfold.
  destruct (list_sort sort_key skills) as [l r] eqn:E. cbn [fst snd].
  destruct (list_sort_inv sort_key _ _ _ E)
    as [(-> & kl & Hkl & Hl) | (e & -> & _)]; cbn [bind];
    [|now exists l, e].
  destruct (append_rows header l) as [doc|e] eqn:Hdoc; cbn [bind];
    [|now exists l, e].
  exfalso. destruct (append_rows_inv _ _ _ Hdoc) as (rows & Hrows & _).
  apply Exists_exists in Hd as (x & Hx & Hnd).
  assert (In x l) as Hin.
  { destruct (decorate_ok sort_key _ _ Hkl) as [Hs _]. subst l.
    rewrite <- Hs in Hx. eapply Permutation_in; [|exact Hx].
    apply Permutation_map. symmetry. apply sort_keyed_perm. }
  clear - Hrows Hin Hnd.
  induction Hrows as [|y row l rows Hy _ IH]; [destruct Hin|].
  destruct Hin as [-> | Hin]; [|now apply IH].
  apply Hnd. eapply table_row_described, Hy.
Qed.

(** X10. If the names are [str]s and the description of some record is not
    (an empty [description:] decodes to [None]), the renderer raises and
    returns no text, and the caller's list has already been sorted. *)
Theorem non_str_description_raises_sorted
    (skills : list skill) (timestamp : string) :
  Forall str_named skills ->
  Exists (fun x => ~ str_described x) skills ->
  exists sorted e,
    generate_readme skills timestamp = (sorted, Raise e) /\
    Permutation skills sorted /\
    StronglySorted (elem_le sort_key) sorted.
Proof.
  intros Hn Hd.
  destruct (generate_readme_undescribed skills timestamp Hd)
    as (sorted & e & E).
  exists sorted, e. split; [exact E|].
  destruct (list_sort_ok sort_key skills (str_named_keys _ Hn))
    as (sorted' & E' & Hp & Hs & _).
  rewrite generate_readme_unfold, E' in E. cbn [fst] in E.
  injection E as <- _. now split.
Qed.

Lemma non_str_description_raises_sorted_witness :
  exists sorted e,
    generate_readme [record "b" "d" "b/SKILL.md";
                     {| name := YStr "a"; description := YNull;
                        path := "a/SKILL.md" |}] sample_time
    = (sorted, Raise e).
Proof.
  destruct (non_str_description_raises_sorted
              [record "b" "d" "b/SKILL.md";
               {| name := YStr "a"; description := YNull;
                  path := "a/SKILL.md" |}] sample_time)
    as (sorted & e & E & _).
  - repeat constructor; eexists; reflexivity.
  - apply Exists_cons_tl, Exists_cons_hd. intros [d Hd]. discriminate.
  - now exists sorted, e.
Defined.

(** ** The run as a whole *)

Section RunFacts.

Variable safe_load : string -> result yaml_value.

(** X11. When the loop has treated every file and some record it built has
    a description that is not a [str] (an empty [description:] decodes to
    [None]), the renderer raises and the exception leaves [main]: the line
    of every file has been printed, no count follows, and [README.md] has
    not been opened, so no table is written for the other skills either. *)
Theorem unusable_description_fails_run
    (fs : filesystem) (timestamp : string) :
  Forall (fun f => exists r, examine safe_load f = Ok r)
    (find_skill_files fs) ->
  Exists (fun f => exists x, examine safe_load f = Ok (Some x) /\
                             ~ str_described x)
    (find_skill_files fs) ->
  exists e,
    main safe_load fs timestamp
    = {| printed := flat_map (report safe_load) (find_skill_files fs);
         readme_after := readme_md fs;
         status := Raise e |}.
Proof.
  intros Hok Hbad. rewrite main_unfold.
  remember (find_skill_files fs) as found eqn:Efound. clear Efound.
  pose proof (parse_each_ok safe_load found Hok [] []) as Hloop.
  cbn [app] in Hloop.
  assert (Exists (fun x => ~ str_described x)
            (flat_map (built safe_load) found)) as Hd.
  { apply Exists_exists in Hbad as (f & Hf & x & Hx & Hnd).
    apply Exists_exists. exists x. split; [|exact Hnd].
    apply in_flat_map. exists f. split; [exact Hf|].
    unfold built. rewrite Hx. now left. }
  destruct (generate_readme_undescribed _ timestamp Hd) as (sorted & e & E).
  exists e. destruct found as [|f files]; [inversion Hbad|].
  rewrite Hloop.
  destruct (flat_map (built safe_load) (f :: files)) as [|x skills];
    [inversion Hd|].
  now rewrite E.
Qed.

Lemma parse_each_raise (pre post : list skill_file) (f : skill_file)
    (e : exn) :
  Forall (fun g => exists r, examine safe_load g = Ok r) pre ->
  examine safe_load f = Raise e ->
  forall skills out,
    parse_each safe_load (pre ++ f :: post)%list skills out
    = ((skills ++ flat_map (built safe_load) pre)%list,
       (out ++ flat_map (report safe_load) pre)%list,
       Raise e).
Proof.
  intros Hpre Hf. induction Hpre as [|g pre [r Hr] _ IH]; intros skills out.
  - simpl. now rewrite Hf, !app_nil_r.
  - cbn [app parse_each flat_map].
    assert (built safe_load g = match r with Some x => [x] | None => [] end)
      as -> by (unfold built; now rewrite Hr).
    assert (report safe_load g
            = match r with
              | Some x => [FoundSkill (name x)]
              | None => [MissingKeys (file_path g)]
              end)
      as -> by (unfold report; now rewrite Hr).
    rewrite Hr. destruct r as [x|]; rewrite IH; now rewrite <- !app_assoc.
Qed.

(** X12. The run stops at the first file for which the loop body raises
    (a decoder error other than [YAMLError], a frontmatter that is a number,
    a list holding both keys): the files before it have been reported, those
    after it are not read, the exception leaves [main] and [README.md] is as
    it was. *)
Theorem run_stops_at_first_error (fs : filesystem) (timestamp : string)
    (pre post : list skill_file) (f : skill_file) (e : exn) :
  find_skill_files fs = (pre ++ f :: post)%list ->
  Forall (fun g => exists r, examine safe_load g = Ok r) pre ->
  examine safe_load f = Raise e ->
  main safe_load fs timestamp
  = {| printed := flat_map (report safe_load) pre;
       readme_after := readme_md fs;
       status := Raise e |}.
Proof.
  intros Hfiles Hpre Hf. rewrite main_unfold, Hfiles.
  destruct (pre ++ f :: post)%list as [|g files] eqn:E;
    [now destruct pre|].
  rewrite <- E, (parse_each_raise pre post f e Hpre Hf). reflexivity.
Qed.

Lemma built_length (files : list skill_file) :
  Forall (well_formed safe_load) files ->
  List.length (flat_map (built safe_load) files)
  = List.length (filter (frontmatter_has_keys safe_load) files) /\
  List.length (flat_map (report safe_load) files) = List.length files.
Proof.
  induction 1 as [|f files Hf _ [IH1 IH2]]; [now split|].
  cbn [flat_map filter]. rewrite !length_app, IH1, IH2.
  apply examine_well_formed in Hf. unfold built, report.
  destruct (frontmatter_has_keys safe_load f).
  - destruct Hf as (n & d & ->). now split.
  - rewrite Hf. now split.
Qed.

Lemma built_paths (files : list skill_file) :
  Forall (well_formed safe_load) files ->
  map path (flat_map (built safe_load) files)
  = map file_path (filter (frontmatter_has_keys safe_load) files).
Proof.
  induction 1 as [|f files Hf _ IH]; [reflexivity|].
  cbn [flat_map filter]. rewrite map_app, IH.
  apply examine_well_formed in Hf. unfold built.
  destruct (frontmatter_has_keys safe_load f).
  - destruct Hf as (n & d & ->). reflexivity.
  - now rewrite Hf.
Qed.

(** X13. When every frontmatter is a mapping with [str] values and at
    least one has both keys, the run returns normally; the table it writes
    holds the rows of records whose paths are, one for one, the paths of
    the files that have both keys; it prints one line for each file found,
    and last the count of those files. *)
Theorem run_counts_rows (fs : filesystem) (timestamp : string) :
  Forall (well_formed safe_load) (find_skill_files fs) ->
  Exists (fun f => frontmatter_has_keys safe_load f = true)
    (find_skill_files fs) ->
  let run := main safe_load fs timestamp in
  let valid := filter (frontmatter_has_keys safe_load) (find_skill_files fs) in
  status run = Ok tt /\
  (exists sorted rows,
      rows_of sorted rows /\
      Permutation (map file_path valid) (map path sorted) /\
      readme_after run = Some (header ++ join rows ++ footer timestamp)) /\
  printed run
  = (flat_map (report safe_load) (find_skill_files fs)
       ++ [Generated (List.length valid)])%list /\
  List.length (printed run) = S (List.length (find_skill_files fs)).
Proof.
  intros Hwf Hex. cbv zeta. rewrite main_unfold.
  remember (find_skill_files fs) as found eqn:Efound. clear Efound.
  destruct (built_length _ Hwf) as [Hb Hr].
  pose proof (built_paths _ Hwf) as Hpaths.
  assert (Forall str_valued (flat_map (built safe_load) found)) as Hv.
  { apply Forall_forall. intros x Hx.
    apply in_flat_map in Hx as (f & Hf & Hx).
    rewrite Forall_forall in Hwf.
    now destruct (built_well_formed safe_load f x (Hwf f Hf) Hx)
      as (_ & _ & ?). }
  destruct (generate_readme_ok _ timestamp Hv)
    as (sorted & rows & Egen & Hrows & Hperm & _).
  assert (Permutation
            (map file_path (filter (frontmatter_has_keys safe_load) found))
            (map path sorted)) as Hpp
    by (rewrite <- Hpaths; now apply Permutation_map).
  apply Permutation_length in Hperm.
  assert (forall skills out,
            parse_each safe_load found skills out
            = ((skills ++ flat_map (built safe_load) found)%list,
               (out ++ flat_map (report safe_load) found)%list,
               Ok tt)) as Hloop.
  { apply parse_each_ok. eapply Forall_impl; [|exact Hwf]. intros g Hg.
    apply examine_well_formed in Hg.
    destruct (frontmatter_has_keys safe_load g);
      [destruct Hg as (? & ? & ->) | rewrite Hg]; now eexists. }
  assert (0 < List.length (filter (frontmatter_has_keys safe_load) found))
    as Hpos.
  { apply Exists_exists in Hex as (f & Hf & Hk).
    assert (In f (filter (frontmatter_has_keys safe_load) found)) as Hin
      by (apply filter_In; now split).
    destruct (filter _ _); [destruct Hin | simpl; lia]. }
  destruct found as [|f files]; [simpl in Hpos; lia|].
  remember (f :: files) as found eqn:Efound.
  rewrite Hloop. cbn [app].
  destruct (flat_map (built safe_load) found) as [|x skills];
    [simpl in Hb; lia|].
  rewrite Egen. cbn [status readme_after printed].
  split; [reflexivity|]. split; [|split].
  - now exists sorted, rows.
  - replace (List.length sorted)
      with (List.length (filter (frontmatter_has_keys safe_load) found))
      by lia.
    reflexivity.
  - rewrite length_app, Hr. simpl. lia.
Qed.

End RunFacts.

Lemma run_stops_at_first_error_witness :
  main sample_load list_fs sample_time
  = {| printed := [MissingKeys "notes/SKILL.md"];
       readme_after := Some "old text";
       status := Raise TypeError |}.
Proof.
  assert (Forall (fun g => exists r, examine sample_load g = Ok r)
            [md "notes/SKILL.md" notes_md]) as H
    by (repeat constructor; now eexists).
  exact (run_stops_at_first_error sample_load list_fs sample_time
           [md "notes/SKILL.md" notes_md] [md "alpha/SKILL.md" alpha_md]
           (md "list/SKILL.md" list_md) TypeError eq_refl H eq_refl).
Defined.

Lemma run_counts_rows_witness :
  List.length (printed (main sample_load sample_fs sample_time)) = 4.
Proof.
  apply (run_counts_rows sample_load sample_fs sample_time
           sample_fs_well_formed).
  apply Exists_cons_hd. reflexivity.
Defined.

Lemma unusable_description_fails_run_witness :
  exists e,
    main null_load delta_fs sample_time
    = {| printed := [FoundSkill (YStr "Alpha Tool"); FoundSkill (YStr "delta")];
         readme_after := Some "old text";
         status := Raise e |}.
Proof.
  apply (unusable_description_fails_run null_load delta_fs sample_time).
  - repeat constructor; now eexists.
  - apply Exists_cons_tl, Exists_cons_hd. eexists. split; [reflexivity|].
    intros [d Hd]. discriminate.
Defined.

(** ** The order of discovery *)

Lemma sorted_perm_unique {A : Type} (key : A -> result string)
    (l1 l2 : list A) :
  NoDup (map key l1) ->
  StronglySorted (elem_le key) l1 -> StronglySorted (elem_le key) l2 ->
  Permutation l1 l2 -> l1 = l2.
Proof.
  intros Hnd H1; revert l2.
  induction H1 as [|x l1 H1 IH Hx]; intros l2 H2 Hp.
  - now apply Permutation_nil in Hp.
  - destruct H2 as [|y l2 H2 Hy].
    + apply Permutation_sym, Permutation_nil in Hp. discriminate.
    + simpl in Hnd. apply NoDup_cons_iff in Hnd as [Hnew Hnd].
      assert (x = y) as <-.
      { assert (In y (x :: l1)) as Iy
          by (eapply Permutation_in; [symmetry; exact Hp | now left]).
        assert (In x (y :: l2)) as Ix
          by (eapply Permutation_in; [exact Hp | now left]).
        destruct Iy as [|Iy]; [assumption|].
        destruct Ix as [|Ix]; [now symmetry|].
        rewrite Forall_forall in Hx, Hy.
        destruct (Hx y Iy) as (ka & kb & Ha & Hb & Hab).
        destruct (Hy x Ix) as (kb' & ka' & Hb' & Ha' & Hba).
        assert (ka = kb)
          by (apply key_le_antisym; congruence).
        elim Hnew. replace (key x) with (key y) by congruence.
        now apply in_map. }
      f_equal. apply IH; trivial.
      now apply Permutation_cons_inv in Hp.
Qed.

(** X14. When no two records have the same lowered name, the renderer
    gives the same text, and leaves the same list, for every order in which
    the records come. *)
Theorem readme_independent_of_order
    (skills skills2 : list skill) (timestamp : string) :
  Forall str_valued skills ->
  NoDup (map sort_key skills) ->
  Permutation skills skills2 ->
  generate_readme skills2 timestamp = generate_readme skills timestamp.
Proof.
  intros Hv Hnd Hp.
  assert (Forall str_valued skills2) as Hv2
    by (eapply Permutation_Forall; eassumption).
  destruct (generate_readme_ok skills timestamp Hv)
    as (s1 & rows1 & E1 & R1 & P1 & S1 & _).
  destruct (generate_readme_ok skills2 timestamp Hv2)
    as (s2 & rows2 & E2 & R2 & P2 & S2 & _).
  assert (s1 = s2) as <-.
  { apply (sorted_perm_unique sort_key); trivial.
    - eapply Permutation_NoDup; [|exact Hnd]. now apply Permutation_map.
    - now rewrite <- P1, Hp. }
  assert (rows1 = rows2) as <-.
  { clear - R1 R2. revert rows2 R2.
    induction R1 as [|x r l rows Hx _ IH]; intros rows2 R2;
      inversion R2; subst; [reflexivity|].
    f_equal; [congruence | now apply IH]. }
  now rewrite E1, E2.
Qed.

Lemma readme_independent_of_order_witness :
  generate_readme [record "b" "d" "b/SKILL.md"; record "A" "e" "a/SKILL.md"]
    sample_time
  = generate_readme [record "A" "e" "a/SKILL.md"; record "b" "d" "b/SKILL.md"]
      sample_time.
Proof.
  apply readme_independent_of_order.
  - repeat constructor; eexists; reflexivity.
  - repeat constructor; simpl; intros H;
      repeat (destruct H as [H | H]; [discriminate|]); exact H.
  - apply perm_swap.
Defined.

(** ** Runs *)

(** The patterns that [re.match] accepts and what it captures. *)
Example found_simple :
  Pattern.frontmatter alpha_md = Some "name: Alpha Tool
description: Always runs on save".
Proof. reflexivity. Qed.

Example found_empty_body : Pattern.frontmatter empty_md = Some "".
Proof. reflexivity. Qed.

Example not_found_adjacent_markers :
  Pattern.frontmatter ("---" ++ nl ++ "---" ++ nl) = None.
Proof. reflexivity. Qed.

Example not_found_unterminated :
  Pattern.frontmatter ("---" ++ nl ++ "foo" ++ nl ++ "---") = None.
Proof. reflexivity. Qed.

Example found_after_blank_lines :
  Pattern.frontmatter ("---" ++ nl ++ nl ++ nl ++ "foo" ++ nl ++ "---" ++ nl)
  = Some "foo".
Proof. reflexivity. Qed.

Example indented_marker_is_body :
  Pattern.frontmatter
    ("---  " ++ nl ++ "foo" ++ nl ++ " --- " ++ nl ++ "---  " ++ nl ++ "rest")
  = Some ("foo" ++ nl ++ " --- ").
Proof. reflexivity. Qed.

Example greedy_spaces_backtrack :
  Pattern.frontmatter
    ("--- " ++ nl ++ nl ++ "---" ++ nl ++ nl ++ "---" ++ nl)
  = Some ("---" ++ nl).
Proof. reflexivity. Qed.

Example replace_pipes : PyStr.replace "a|b||c" "|" "\|" = "a\|b\|\|c".
Proof. reflexivity. Qed.

Example replace_no_overlap : PyStr.replace "aaa" "aa" "b" = "ba".
Proof. reflexivity. Qed.

Example replace_empty_old : PyStr.replace "abc" "" "-" = "-a-b-c-".
Proof. reflexivity. Qed.

Example lower_ascii : PyStr.lower "ALWAYS Every z[@`{" = "always every z[@`{".
Proof. reflexivity. Qed.

(** The scenario of the specification, with more entries around it. *)
Example run_sample :
  main sample_load sample_fs sample_time =
  {| printed := [FoundSkill (YStr "Beta Tool"); MissingKeys "notes/SKILL.md";
                 FoundSkill (YStr "Alpha Tool"); Generated 2];
     readme_after := Some
"# Skills

This repository contains Claude Code skills. The README is automatically generated from skill definitions.

## Available Skills

| Skill | Description | Command |
|-------|-------------|---------|
| [Alpha Tool](alpha/SKILL.md) | Always runs on save | Auto-invoked |
| [Beta Tool](beta/SKILL.md) | Formats code | /Beta Tool |

---
*Last updated: 2026-01-01 00:00:00 UTC*
";
     status := Ok tt |}.
Proof. reflexivity. Qed.

(** The list after the call: sorted, equal keys in their former order. *)
Example sorted_in_place :
  fst (generate_readme sample_skills sample_time)
  = [record "Alpha" "Always | on" "alpha/SKILL.md";
     record "beta" "Formats code" "beta/SKILL.md";
     record "BETA" "second beta" "beta2/SKILL.md"].
Proof. reflexivity. Qed.

(** A frontmatter that is a list holding "name" and "description" passes
    the key test and the subscript raises; a name that is not a [str] is
    taken into the list and the sort raises. *)
Example run_list_frontmatter :
  main sample_load
    {| listing := [subdir "list" list_md]; readme_md := Some "old text" |}
    sample_time
  = {| printed := []; readme_after := Some "old text";
       status := Raise TypeError |}.
Proof. reflexivity. Qed.

Example render_null_name :
  generate_readme [{| name := YNull; description := YStr "d"; path := "p" |}]
    sample_time
  = ([{| name := YNull; description := YStr "d"; path := "p" |}],
     Raise AttributeError).
Proof. reflexivity. Qed.
